(** * HttpProxyTransport: the HTTP CONNECT tunnel of libdatachannel

    A shallow embedding of [src/impl/httpproxytransport.cpp].  The class
    [HttpProxyTransport] sits between a TCP transport (the lower layer) and
    whatever registered to receive its output (the upper layer).  After
    [start] it sends one CONNECT request, accumulates the proxy's answer in
    [mBuffer] until a whole header block is there, and from then on passes
    bytes through in both directions.

    The member functions are written in a small monad over the object and
    the two logs of what crossed its borders; a C++ exception is an explicit
    outcome, and so is the one place where the code can leave the defined
    behaviour of the language ([vector::erase] past the end). *)

From Stdlib Require Import List ZArith Lia Bool.
From Stdlib Require Import Strings.Ascii Strings.String Strings.Byte.
Import ListNotations.

(** ** Data *)

(** Modelled from the spec: the enumeration [Transport::State] is declared in
    transport.hpp, which is not among the sources; the specification names
    these four values, and the code uses each of them. *)
Inductive State : Type :=
| Disconnected
| Connecting
| Connected
| Failed.

Definition State_eqb (a b : State) : bool :=
  match a, b with
  | Disconnected, Disconnected
  | Connecting, Connecting
  | Connected, Connected
  | Failed, Failed => true
  | _, _ => false
  end.

(** [binary] is the byte vector of a message; a [message_ptr] is either a
    message or the null pointer, by which a transport reports that the
    stream has ended. *)
Definition binary := list byte.
Definition message_ptr := option binary.

(** The exceptions of this translation unit, by the place that throws them,
    and [Foreign] for whatever a collaborator (line parser, lower transport,
    receiver callback) throws. *)
Inductive exn : Type :=
| LowerNotActive          (* logic_error, constructor *)
| NotOpen                 (* runtime_error "Http proxy connection is not open" *)
| InvalidRequest          (* runtime_error "Invalid http request for proxy" *)
| UnexpectedCode (code : Z) (* runtime_error "Unexpected response code ..." *)
| Foreign (tag : nat).

(** How a call ends: it returns, it throws, or it has left defined
    behaviour. *)
Inductive outcome (A : Type) : Type :=
| Ret (a : A)
| Throw (e : exn)
| Undef.
Arguments Ret {A} a.
Arguments Throw {A} e.
Arguments Undef {A}.

(** How a call into a collaborator ends: it returns, or it throws something
    of its own, which this class sees as a foreign exception. *)
Inductive reply (A : Type) : Type :=
| Returns (a : A)
| Raises (tag : nat).
Arguments Returns {A} a.
Arguments Raises {A} tag.

(** The object, together with the record of what it handed to the upper
    layer ([received], through [Transport::recv]) and to the lower layer
    ([sent], through [Transport::outgoing]), oldest first. *)
Record Transport : Type := mkTransport {
  mHostname : string;
  mService : string;
  mState : State;
  mBuffer : binary;
  mRegistered : bool;
  received : list message_ptr;
  sent : list binary
}.

Definition set_state (s : State) (t : Transport) : Transport :=
  mkTransport (mHostname t) (mService t) s (mBuffer t) (mRegistered t)
              (received t) (sent t).
Definition set_buffer (b : binary) (t : Transport) : Transport :=
  mkTransport (mHostname t) (mService t) (mState t) b (mRegistered t)
              (received t) (sent t).
Definition set_registered (r : bool) (t : Transport) : Transport :=
  mkTransport (mHostname t) (mService t) (mState t) (mBuffer t) r
              (received t) (sent t).
Definition log_received (m : message_ptr) (t : Transport) : Transport :=
  mkTransport (mHostname t) (mService t) (mState t) (mBuffer t) (mRegistered t)
              (received t ++ [m]) (sent t).
Definition log_sent (m : binary) (t : Transport) : Transport :=
  mkTransport (mHostname t) (mService t) (mState t) (mBuffer t) (mRegistered t)
              (received t) (sent t ++ [m]).

(** The bytes of all data messages of a log, in order; a null message
    carries none. *)
Definition payload_bytes (l : list message_ptr) : binary :=
  List.concat (map (fun m => match m with Some b => b | None => [] end) l).

(** ** The monad of member functions *)

Definition M (A : Type) : Type := Transport -> outcome A * Transport.

Definition ret {A} (a : A) : M A := fun t => (Ret a, t).
Definition throw {A} (e : exn) : M A := fun t => (Throw e, t).
Definition undefined {A} : M A := fun t => (Undef, t).
Definition bind {A B} (m : M A) (k : A -> M B) : M B :=
  fun t => match m t with
           | (Ret a, t') => k a t'
           | (Throw e, t') => (Throw e, t')
           | (Undef, t') => (Undef, t')
           end.
(** [try { body } catch (const std::exception &) { handler }]; every
    exception of [exn] is a [std::exception]. *)
Definition try_catch {A} (body : M A) (handler : exn -> M A) : M A :=
  fun t => match body t with
           | (Throw e, t') => handler e t'
           | r => r
           end.
Definition lift {A} (o : outcome A) : M A := fun t => (o, t).
Definition outcome_of_reply {A} (r : reply A) : outcome A :=
  match r with
  | Returns a => Ret a
  | Raises tag => Throw (Foreign tag)
  end.
Definition call {A} (r : reply A) : M A := lift (outcome_of_reply r).
Definition gets {A} (f : Transport -> A) : M A := fun t => (Ret (f t), t).
Definition modify (f : Transport -> Transport) : M unit := fun t => (Ret tt, f t).

Declare Scope cpp_scope.
Delimit Scope cpp_scope with cpp.
Notation "x <- m ;; k" := (bind m (fun x => k))
  (at level 61, m at next level, right associativity) : cpp_scope.
Notation "m ;; k" := (bind m (fun _ => k))
  (at level 61, right associativity) : cpp_scope.
Open Scope cpp_scope.

(** ** Text *)

Definition CR : ascii := "013"%char.
Definition LF : ascii := "010"%char.
Definition CRLF : string := String CR (String LF EmptyString).

(** [reinterpret_cast<const byte *>(request.data())]: the characters of a
    string as bytes. *)
Definition bytes_of_string (s : string) : binary := list_byte_of_string s.

(** ** [std::istringstream], as far as [parseHttpResponse] uses it

    The status line is read with [status >> protocol >> code].  Both
    extractions are formatted input: a sentry first checks that the stream is
    good and skips white space (failing, with [eofbit] and [failbit], when it
    finds the end of the text instead of a character); a failed extraction
    leaves its target as it was. *)

Definition isspace (c : ascii) : bool :=
  let n := nat_of_ascii c in (n =? 32) || ((9 <=? n) && (n <=? 13)).

Definition isdigit (c : ascii) : bool :=
  let n := nat_of_ascii c in (48 <=? n) && (n <=? 57).

Definition digit_value (c : ascii) : Z := Z.of_nat (nat_of_ascii c) - 48.

Record istringstream : Type := mkStream {
  unread : string;
  failbit : bool;
  eofbit : bool
}.

Definition good (s : istringstream) : bool := negb (failbit s) && negb (eofbit s).

Fixpoint skipws (s : string) : string :=
  match s with
  | String c r => if isspace c then skipws r else s
  | EmptyString => EmptyString
  end.

Definition sentry (s : istringstream) : bool * istringstream :=
  if good s then
    match skipws (unread s) with
    | EmptyString => (false, mkStream EmptyString true true)
    | r => (true, mkStream r false false)
    end
  else (false, mkStream (unread s) true (eofbit s)).

(** The characters up to the next white space or the end, and what follows. *)
Fixpoint take_word (s : string) : string * string :=
  match s with
  | String c r =>
      if isspace c then (EmptyString, s)
      else let (w, r') := take_word r in (String c w, r')
  | EmptyString => (EmptyString, EmptyString)
  end.

(** [is >> str] for a [std::string]. *)
Definition extract_string (old : string) (s : istringstream)
  : string * istringstream :=
  let (ok, s1) := sentry s in
  if ok then
    let (w, r) := take_word (unread s1) in
    (w, mkStream r false (match r with EmptyString => true | _ => false end))
  else (old, s1).

(** The decimal digits at the front of [s]: their value on top of [acc],
    how many they are, and what follows. *)
Fixpoint read_digits (s : string) (acc : Z) (count : nat) : Z * nat * string :=
  match s with
  | String c r =>
      if isdigit c then read_digits r (10 * acc + digit_value c)%Z (S count)
      else (acc, count, s)
  | EmptyString => (acc, count, EmptyString)
  end.

Definition UINT_MAX : Z := 4294967295.

(** An optional sign in front of the digits: whether it is a minus, and what
    follows it. *)
Definition take_sign (s : string) : bool * string :=
  match s with
  | String c r =>
      if Ascii.eqb c "-" then (true, r)
      else if Ascii.eqb c "+" then (false, r)
      else (false, s)
  | EmptyString => (false, EmptyString)
  end.

(** [is >> n] for an [unsigned int], in the classic locale and base ten, as
    [num_get] of libstdc++ and libc++ does it: an optional sign, then digits.
    Without a digit the value is 0 and the extraction fails; a digit string
    beyond [UINT_MAX] gives [UINT_MAX] and fails; after a minus sign the value
    is negated in the unsigned type. *)
Definition extract_uint (old : Z) (s : istringstream) : Z * istringstream :=
  let (ok, s1) := sentry s in
  if ok then
    let (negative, body) := take_sign (unread s1) in
    let '(value, count, r) := read_digits body 0%Z 0 in
    let eof := match r with EmptyString => true | _ => false end in
    if (count =? 0)%nat then (0%Z, mkStream r true eof)
    else if (UINT_MAX <? value)%Z then (UINT_MAX, mkStream r true eof)
    else if negative then ((- value) mod (UINT_MAX + 1), mkStream r false eof)%Z
    else (value, mkStream r false eof)
  else (old, s1).

(** [string protocol; unsigned int code = 0; status >> protocol >> code;]:
    the value of [code] afterwards, and whether the stream has failed. *)
Definition read_status (line : string) : Z * bool :=
  let (protocol, s1) := extract_string EmptyString (mkStream line false false) in
  let (code, s2) := extract_uint 0%Z s1 in
  (code, failbit s2).

Definition status_code (line : string) : Z := fst (read_status line).

(** ** The line splitter

    [utils::parseHttpLines] is defined in utils.cpp, which is not among the
    sources.  The class below takes its splitter as a parameter; the one
    defined here follows the specification and serves to run the class on
    concrete bytes. *)

(** A line without the CR that may end it. *)
Fixpoint strip_cr (line : string) : string :=
  match line with
  | EmptyString => EmptyString
  | String c EmptyString => if Ascii.eqb c CR then EmptyString else line
  | String c r => String c (strip_cr r)
  end.

(** Modelled from the spec: the scan of [utils::parseHttpLines] (utils.cpp is
    not among the sources).  The buffer is split into terminated text lines;
    a line ends in LF, and a CR before it belongs to the terminator.  The
    first empty line ends the header block, and the bytes up to and including
    it are the bytes consumed; a buffer that ends before an empty line holds
    no complete block, which is reported as 0. *)
Fixpoint split_lines (buffer : binary) (line : string) (lines : list string)
                     (consumed : nat) : nat * list string :=
  match buffer with
  | [] => (0%nat, lines)
  | b :: rest =>
      let c := ascii_of_byte b in
      if Ascii.eqb c LF then
        match strip_cr line with
        | EmptyString => (S consumed, lines)
        | String c' l =>
            split_lines rest EmptyString (lines ++ [String c' l]) (S consumed)
        end
      else split_lines rest (line ++ String c EmptyString)%string lines (S consumed)
  end.

(** Modelled from the spec: [utils::parseHttpLines] (utils.cpp is not among
    the sources): the number of bytes consumed if a complete block is
    present, 0 if it is not, and the lines.  The specification names no
    framing that it rejects, so this splitter never throws. *)
Definition httpLines (buffer : binary) : reply (nat * list string) :=
  Returns (split_lines buffer EmptyString [] 0).

(** ** The class *)

Section HttpProxyTransport.

(** The collaborators of the class are not among the sources and are taken
    as they come: the line splitter [utils::parseHttpLines], which returns
    the number of bytes of the header block (0 when the block is not yet
    complete) together with its lines; [send] of the lower transport; and
    the callback of the upper layer, which [Transport::recv] calls.  Each
    may throw. *)
Variable parseHttpLines : binary -> reply (nat * list string).
Variable lowerSend : binary -> reply bool.
Variable upperRecv : message_ptr -> reply unit.

(** *** What the base class [Transport] provides *)

(** Modelled from the spec: [Transport::state] (transport.cpp is not among
    the sources): the current connection state. *)
Definition state : M State := gets mState.

(** Modelled from the spec: [Transport::changeState] (transport.cpp is not
    among the sources): makes [s] the current state.  The notification of
    the state callback is left out. *)
Definition changeState (s : State) : M unit := modify (set_state s).

(** Modelled from the spec: [Transport::registerIncoming] (transport.cpp is
    not among the sources): registers this instance to receive bytes from
    the lower transport. *)
Definition registerIncoming : M unit := modify (set_registered true).

(** Modelled from the spec: [Transport::unregisterIncoming] (transport.cpp is
    not among the sources): deregisters from receiving further bytes. *)
Definition unregisterIncoming : M unit := modify (set_registered false).

(** Modelled from the spec: [Transport::outgoing] (transport.cpp is not among
    the sources): passes the message to [send] of the lower transport, whose
    result is the result. *)
Definition outgoing (message : binary) : M bool :=
  modify (log_sent message) ;; call (lowerSend message).

(** Modelled from the spec: [Transport::recv] (transport.cpp is not among the
    sources): delivers the message, or the end of the stream, to the
    registered receiver. *)
Definition recv (message : message_ptr) : M unit :=
  modify (log_received message) ;; call (upperRecv message).

(** *** Constructor *)
Definition create (lowerActive : bool) (hostname service : string)
  : outcome Transport :=
  if negb lowerActive then Throw LowerNotActive
  else Ret (mkTransport hostname service Disconnected [] false [] []).

(** *** generateHttpRequest *)
Definition generateHttpRequest (t : Transport) : string :=
  ("CONNECT " ++ mHostname t ++ ":" ++ mService t ++ " HTTP/1.1" ++ CRLF
     ++ "Host: " ++ mHostname t ++ CRLF ++ CRLF)%string.

(** *** sendHttpRequest *)
Definition sendHttpRequest : M bool :=
  request <- gets generateHttpRequest ;;
  outgoing (bytes_of_string request).

(** *** start, stop, isActive

    [start] is [void]: what [sendHttpRequest] returns is dropped. *)
Definition start : M unit :=
  registerIncoming ;;
  changeState Connecting ;;
  sendHttpRequest ;;
  ret tt.

Definition stop : M unit := unregisterIncoming.

Definition isActive : M bool := ret true.

(** *** send

    The message is dereferenced for the log line, so it is a message and
    not the null pointer.  The lock on [mSendMutex] is left out. *)
Definition send (message : binary) : M bool :=
  s <- state ;;
  if negb (State_eqb s Connected) then throw NotOpen
  else outgoing message.

(** *** parseHttpResponse *)
Definition parseHttpResponse (buffer : binary) : outcome nat :=
  match parseHttpLines buffer with
  | Returns (length, lines) =>
      if (length =? 0)%nat then Ret 0%nat
      else
        match lines with
        | [] => Throw InvalidRequest
        | front :: _ =>
            let code := status_code front in
            if negb (code =? 200)%Z then Throw (UnexpectedCode code)
            else Ret length
        end
  | Raises tag => Throw (Foreign tag)
  end.

(** *** incoming *)

(** [mBuffer.erase(mBuffer.begin(), mBuffer.begin() + len)]: defined only
    when the range lies within the vector. *)
Definition erase_front (len : nat) : M unit :=
  buf <- gets mBuffer ;;
  if (len <=? List.length buf)%nat then modify (set_buffer (skipn len buf))
  else undefined.

(** The body of the [try] block; it ends in [return]. *)
Definition incoming_try (message : binary) : M unit :=
  s <- state ;;
  if State_eqb s Connecting then
    modify (fun t => set_buffer (mBuffer t ++ message) t) ;;
    buf <- gets mBuffer ;;
    len <- lift (parseHttpResponse buf) ;;
    if negb (len =? 0)%nat then
      changeState Connected ;;
      erase_front len ;;
      rest <- gets mBuffer ;;
      match rest with
      | [] => ret tt
      | _ :: _ => recv (Some rest) ;; modify (set_buffer [])
      end
    else ret tt
  else if State_eqb s Connected then recv (Some message)
  else ret tt.

(** What follows the [if (message)] block. *)
Definition incoming_close : M unit :=
  s <- state ;;
  if State_eqb s Connected then
    changeState Disconnected ;;
    recv None
  else changeState Failed.

Definition incoming (message : message_ptr) : M unit :=
  s <- state ;;
  if negb (State_eqb s Connecting) && negb (State_eqb s Connected) then ret tt
  else
    match message with
    | Some m =>
        returned <- try_catch (incoming_try m ;; ret true)
                              (fun _ => ret false) ;;
        if (returned : bool) then ret tt else incoming_close
    | None => incoming_close
    end.

(** A run of deliveries from the lower transport, one after the other. *)
Fixpoint deliveries (messages : list message_ptr) : M unit :=
  match messages with
  | [] => ret tt
  | m :: rest => incoming m ;; deliveries rest
  end.

(** *** The object in use

    What its owner and the lower transport can do with the object.  An
    operation that throws leaves the object as it is at that point, and the
    next operation finds it so. *)
Inductive operation : Type :=
| OpStart
| OpStop
| OpSend (message : binary)
| OpIncoming (message : message_ptr).

Definition perform (op : operation) (t : Transport) : Transport :=
  match op with
  | OpStart => snd (start t)
  | OpStop => snd (stop t)
  | OpSend message => snd (send message t)
  | OpIncoming message => snd (incoming message t)
  end.

Definition perform_all (ops : list operation) (t : Transport) : Transport :=
  fold_left (fun t' op => perform op t') ops t.

Definition is_start (op : operation) : bool :=
  match op with OpStart => true | _ => false end.

End HttpProxyTransport.

(** ** What fragmentation asks of the line splitter

    The byte stream [response] begins with a header block of [len] bytes
    and the lines [lines], and the splitter [parse] finds it from the front:
    given any beginning of [response] that holds all [len] bytes it reports
    the block, and given any shorter beginning it reports no progress. *)
Definition splits_by_prefix (parse : binary -> reply (nat * list string))
           (response : binary) (len : nat) (lines : list string) : Prop :=
  forall p q : binary,
    p ++ q = response ->
    ((len <= List.length p)%nat -> parse p = Returns (len, lines))
    /\ ((List.length p < len)%nat ->
        exists seen : list string, parse p = Returns (0%nat, seen)).

(** ** Objects and collaborators to run the class on *)

(** An object as the constructor leaves it, over an active lower
    transport. *)
Definition fresh : Transport :=
  mkTransport "example.org" "443" Disconnected [] false [] [].

(** The same object in each of the other states. *)
Definition handshaking : Transport := set_registered true (set_state Connecting fresh).
Definition tunnelling : Transport := set_registered true (set_state Connected fresh).
Definition broken : Transport := set_registered true (set_state Failed fresh).

(** A lower transport that accepts every message, one that refuses every
    message, and a receiver that takes whatever it is given. *)
Definition sendAccepts (_ : binary) : reply bool := Returns true.
Definition sendRefuses (_ : binary) : reply bool := Returns false.
Definition recvQuiet (_ : message_ptr) : reply unit := Returns tt.

(** A lower transport whose [send] throws, and a receiver that throws on
    data and takes the end of the stream. *)
Definition sendThrows (_ : binary) : reply bool := Raises 1.
Definition recvChokes (m : message_ptr) : reply unit :=
  match m with
  | Some _ => Raises 2
  | None => Returns tt
  end.

Definition established : string :=
  ("HTTP/1.1 200 Connection Established" ++ CRLF ++ CRLF)%string.
Definition forbidden : string :=
  ("HTTP/1.1 403 Forbidden" ++ CRLF ++ CRLF)%string.

(** The proxy's answer with three bytes of the tunnelled stream behind it,
    whole and in three fragments that cut through the status line and
    through the blank line. *)
Definition established_abc : binary := bytes_of_string (established ++ "abc").
Definition established_abc_fragments : list binary :=
  [bytes_of_string "HTTP/1.1 2";
   bytes_of_string ("00 Connection Established" ++ CRLF ++ String CR EmptyString);
   bytes_of_string (String LF "abc")].
Definition status_200 : string := "HTTP/1.1 200 Connection Established".
Definition status_403 : string := "HTTP/1.1 403 Forbidden".

(** ** Status lines, as text

    What a status line is made of: a protocol token, a run of decimal digits
    and the reason that follows them. *)

(** The value of a string of decimal digits, on top of [acc]. *)
Fixpoint decimal (digits : string) (acc : Z) : Z :=
  match digits with
  | String c r => decimal r (10 * acc + digit_value c)%Z
  | EmptyString => acc
  end.

Fixpoint all_chars (p : ascii -> bool) (s : string) : bool :=
  match s with
  | String c r => p c && all_chars p r
  | EmptyString => true
  end.

(** The reason does not go on with a digit. *)
Definition no_digit_ahead (reason : string) : bool :=
  match reason with
  | String c _ => negb (isdigit c)
  | EmptyString => true
  end.

(** The number a status line carries as it is written, in the
    specification's reading of the line as a protocol token followed by a
    numeric code: the second word, taken as a decimal integer with an
    optional sign and with its own value, a minus sign making it negative.
    This is not what the class computes; it is what [status_code] is held
    against. *)
Definition written_code (line : string) : option Z :=
  let (_, after) := take_word (skipws line) in
  let (word, _) := take_word (skipws after) in
  let (negative, body) := take_sign word in
  let '(value, count, rest) := read_digits body 0%Z 0 in
  match count, rest with
  | S _, EmptyString => Some (if negative then (- value)%Z else value)
  | _, _ => None
  end.


(** A splitter that breaks the bound on the bytes consumed: it reports one
    byte more than it was given, under a status line that reads 200. *)
Definition overReports (buffer : binary) : reply (nat * list string) :=
  Returns (S (List.length buffer), [status_200]).

(** * Properties *)

Ltac unfold_cpp :=
  unfold incoming, incoming_try, incoming_close, start, stop, send,
    sendHttpRequest, recv, outgoing, changeState, state, registerIncoming,
    unregisterIncoming, erase_front, try_catch, bind, ret, throw, undefined,
    gets, modify, call, lift, set_state, set_buffer, set_registered,
    log_received, log_sent in *;
  simpl in *.

Ltac enter_incoming := unfold incoming.
Ltac enter_perform_all := unfold perform_all in *.
Ltac enter_parseHttpResponse := unfold parseHttpResponse.
Ltac enter_incoming_try H := unfold incoming_try in H.

Lemma State_eqb_spec (a b : State) : reflect (a = b) (State_eqb a b).
Proof. destruct a, b; simpl; constructor; congruence. Qed.

Lemma string_length_append (a b : string) :
  String.length (a ++ b) = (String.length a + String.length b)%nat.
Proof. induction a as [|c a IH]; simpl; [reflexivity | now rewrite IH]. Qed.

Lemma list_ascii_of_string_append (a b : string) :
  list_ascii_of_string (a ++ b) = list_ascii_of_string a ++ list_ascii_of_string b.
Proof. induction a as [|c a IH]; simpl; [reflexivity | now rewrite IH]. Qed.

Lemma payload_bytes_app (l1 l2 : list message_ptr) :
  payload_bytes (l1 ++ l2) = payload_bytes l1 ++ payload_bytes l2.
Proof. unfold payload_bytes. now rewrite map_app, concat_app. Qed.

Lemma payload_bytes_data (l : list binary) :
  payload_bytes (map Some l) = List.concat l.
Proof.
  unfold payload_bytes. rewrite map_map. now rewrite map_id.
Qed.


Section Properties.

Variable parseHttpLines : binary -> reply (nat * list string).
Variable lowerSend : binary -> reply bool.
Variable upperRecv : message_ptr -> reply unit.

Local Abbreviation parseHttpResponse := (parseHttpResponse parseHttpLines).
Local Abbreviation incoming := (incoming parseHttpLines upperRecv).
Local Abbreviation incoming_try := (incoming_try parseHttpLines upperRecv).
Local Abbreviation incoming_close := (incoming_close upperRecv).
Local Abbreviation deliveries := (deliveries parseHttpLines upperRecv).
Local Abbreviation start := (start lowerSend).
Local Abbreviation send := (send lowerSend).
Local Abbreviation perform := (perform parseHttpLines lowerSend upperRecv).
Local Abbreviation perform_all := (perform_all parseHttpLines lowerSend upperRecv).

(** ** One delivery, case by case *)

Lemma incoming_dropped (message : message_ptr) (t : Transport) :
  mState t <> Connecting -> mState t <> Connected ->
  incoming message t = (Ret tt, t).
Proof.
  intros H1 H2. destruct t as [h sv st buf reg rcv snt]; simpl in *.
  destruct st; try congruence; reflexivity.
Qed.

Lemma incoming_null (t : Transport) :
  incoming None t =
  match mState t with
  | Connected =>
      (outcome_of_reply (upperRecv None),
       log_received None (set_state Disconnected t))
  | Connecting => (Ret tt, set_state Failed t)
  | _ => (Ret tt, t)
  end.
Proof.
  destruct t as [h sv st buf reg rcv snt]; destruct st; unfold_cpp;
    reflexivity.
Qed.

Lemma incoming_wait (m : binary) (t : Transport) :
  mState t = Connecting ->
  parseHttpResponse (mBuffer t ++ m) = Ret 0%nat ->
  incoming (Some m) t = (Ret tt, set_buffer (mBuffer t ++ m) t).
Proof.
  intros Hs Hp. destruct t as [h sv st buf reg rcv snt]; simpl in *; subst st.
  unfold_cpp. rewrite Hp. reflexivity.
Qed.

Lemma incoming_rejected (m : binary) (t : Transport) (e : exn) :
  mState t = Connecting ->
  parseHttpResponse (mBuffer t ++ m) = Throw e ->
  incoming (Some m) t =
  (Ret tt, set_state Failed (set_buffer (mBuffer t ++ m) t)).
Proof.
  intros Hs Hp. destruct t as [h sv st buf reg rcv snt]; simpl in *; subst st.
  unfold_cpp. rewrite Hp. reflexivity.
Qed.

Lemma incoming_open (m : binary) (t : Transport) (len : nat) :
  mState t = Connecting ->
  parseHttpResponse (mBuffer t ++ m) = Ret len ->
  len <> 0%nat ->
  (len <= List.length (mBuffer t ++ m))%nat ->
  incoming (Some m) t =
  match skipn len (mBuffer t ++ m) with
  | [] => (Ret tt, set_buffer [] (set_state Connected t))
  | b :: r =>
      match upperRecv (Some (b :: r)) with
      | Returns _ =>
          (Ret tt,
           set_buffer [] (log_received (Some (b :: r)) (set_state Connected t)))
      | Raises _ =>
          (outcome_of_reply (upperRecv None),
           log_received None
             (set_state Disconnected
                (log_received (Some (b :: r))
                   (set_buffer (b :: r) t))))
      end
  end.
Proof.
  intros Hs Hp Hn Hle.
  destruct t as [h sv st buf reg rcv snt]; simpl in *; subst st.
  unfold_cpp. rewrite Hp.
  destruct len as [|len']; [congruence|].
  apply Nat.leb_le in Hle.
  cbn -[Nat.leb skipn List.length]. rewrite Hle. cbn -[skipn].
  destruct (skipn (S len') (buf ++ m)) as [|b rest]; [reflexivity|].
  simpl. unfold binary in *.
  destruct (upperRecv (Some (b :: rest))) as [[]|tag]; simpl; [reflexivity|].
  destruct (upperRecv None) as [[]|tag']; reflexivity.
Qed.

Lemma incoming_passthrough (m : binary) (t : Transport) :
  mState t = Connected ->
  incoming (Some m) t =
  match upperRecv (Some m) with
  | Returns _ => (Ret tt, log_received (Some m) t)
  | Raises _ =>
      (outcome_of_reply (upperRecv None),
       log_received None (set_state Disconnected (log_received (Some m) t)))
  end.
Proof.
  intros Hs. destruct t as [h sv st buf reg rcv snt]; simpl in *; subst st.
  unfold_cpp.
  destruct (upperRecv (Some m)) as [[]|tag]; simpl; [reflexivity|].
  destruct (upperRecv None) as [[]|tag']; reflexivity.
Qed.

(** ** The request *)

(** C3. For every hostname and service, [generateHttpRequest] returns
    exactly "CONNECT " hostname ":" service " HTTP/1.1" CR LF "Host: "
    hostname CR LF CR LF, character by character and nothing else; its
    length is accordingly 30 plus twice the length of the hostname plus
    the length of the service, and [sendHttpRequest] hands exactly these
    bytes to the lower transport. *)
Theorem generateHttpRequest_exact (t : Transport) :
  list_ascii_of_string (generateHttpRequest t) =
    list_ascii_of_string "CONNECT " ++ list_ascii_of_string (mHostname t)
      ++ [":"%char] ++ list_ascii_of_string (mService t)
      ++ list_ascii_of_string " HTTP/1.1" ++ [CR; LF]
      ++ list_ascii_of_string "Host: " ++ list_ascii_of_string (mHostname t)
      ++ [CR; LF; CR; LF]
  /\ String.length (generateHttpRequest t) =
       (30 + 2 * String.length (mHostname t) + String.length (mService t))%nat
  /\ sent (snd (sendHttpRequest lowerSend t)) =
       sent t ++ [bytes_of_string (generateHttpRequest t)].
Proof.
  split; [|split].
  - unfold generateHttpRequest, CRLF.
    repeat rewrite list_ascii_of_string_append. reflexivity.
  - unfold generateHttpRequest, CRLF.
    repeat rewrite string_length_append. simpl. lia.
  - destruct t as [h sv st buf reg rcv snt]. unfold_cpp. reflexivity.
Qed.

(** ** send *)

(** C6. [send] in state [Connected] passes the message, unchanged, to the
    lower transport and ends as the lower transport's [send] ends; in any
    other state it throws the not-open error and passes nothing on.  So it
    throws the not-open error exactly when the state is not [Connected]. *)
Theorem send_only_when_connected (message : binary) (t : Transport) :
  send message t =
    (if State_eqb (mState t) Connected
     then (outcome_of_reply (lowerSend message), log_sent message t)
     else (Throw NotOpen, t))
  /\ (fst (send message t) = Throw NotOpen <-> mState t <> Connected).
Proof.
  destruct t as [h sv st buf reg rcv snt].
  split.
  - destruct st; unfold_cpp; reflexivity.
  - destruct st; unfold_cpp; split; intros H; try congruence; try reflexivity.
    destruct (lowerSend message); discriminate.
Qed.

(** ** start *)

(** C7, as the code has it.  [start] registers for incoming data, makes the
    state [Connecting], and only then sends the request.  What the lower
    transport's [send] returns is dropped, so a refused request (false) is
    not reported to the caller; an exception thrown by the lower transport
    does reach the caller.  In every case the state is [Connecting]
    afterwards. *)
Theorem start_advances_before_sending (t : Transport) :
  start t =
    (match lowerSend (bytes_of_string (generateHttpRequest t)) with
     | Returns _ => Ret tt
     | Raises tag => Throw (Foreign tag)
     end,
     log_sent (bytes_of_string (generateHttpRequest t))
       (set_state Connecting (set_registered true t)))
  /\ mState (snd (start t)) = Connecting.
Proof.
  destruct t as [h sv st buf reg rcv snt]. unfold_cpp.
  unfold generateHttpRequest; simpl.
  match goal with |- context [lowerSend ?x] => destruct (lowerSend x) end;
    split; reflexivity.
Qed.

(** ** End of the stream *)

(** C5, as the code has it.  The end of the stream is the null message.
    Delivered in state [Connected] it makes the state [Disconnected] and is
    passed on to the receiver (the call ends as the receiver's does);
    delivered in state [Connecting] it makes the state [Failed] and nothing
    is passed on; in the other states it is dropped. *)
Theorem end_of_stream_is_the_null_message (t : Transport) :
  incoming None t =
  match mState t with
  | Connected =>
      (outcome_of_reply (upperRecv None),
       mkTransport (mHostname t) (mService t) Disconnected (mBuffer t)
         (mRegistered t) (received t ++ [None]) (sent t))
  | Connecting =>
      (Ret tt,
       mkTransport (mHostname t) (mService t) Failed (mBuffer t)
         (mRegistered t) (received t) (sent t))
  | _ => (Ret tt, t)
  end.
Proof. rewrite incoming_null. destruct (mState t); reflexivity. Qed.

(** ** Exceptions inside [incoming] *)

Lemma incoming_caught (m : binary) (t t1 : Transport) (e : exn) :
  mState t = Connecting \/ mState t = Connected ->
  incoming_try m t = (Throw e, t1) ->
  incoming (Some m) t = incoming_close t1.
Proof.
  intros Hs Ht.
  enter_incoming.
  unfold bind at 1, state at 1, gets at 1.
  assert (Hg : negb (State_eqb (mState t) Connecting)
               && negb (State_eqb (mState t) Connected) = false)
    by (destruct Hs as [-> | ->]; reflexivity).
  rewrite Hg. unfold bind at 1, try_catch, bind at 1.
  rewrite Ht. reflexivity.
Qed.

(** C8, as the code has it.  Every exception raised inside the [try] block
    is caught there.  If parsing raised it, the state is still
    [Connecting]: the state becomes [Failed], nothing is delivered, and
    [incoming] returns normally.  Otherwise the receiver raised it, and the
    state is [Connected] by then (pass-through, or the bytes behind the
    header): the state becomes [Disconnected] and the end of the stream is
    delivered to the receiver, [incoming] ending as that delivery ends. *)
Theorem exception_inside_incoming (m : binary) (t t1 : Transport) (e : exn) :
  mState t = Connecting \/ mState t = Connected ->
  incoming_try m t = (Throw e, t1) ->
  (mState t = Connecting
   /\ parseHttpResponse (mBuffer t ++ m) = Throw e
   /\ t1 = set_buffer (mBuffer t ++ m) t
   /\ incoming (Some m) t = (Ret tt, set_state Failed t1)
   /\ received (snd (incoming (Some m) t)) = received t)
  \/
  (mState t1 = Connected
   /\ (exists (tag : nat) (bytes : binary),
        e = Foreign tag /\ upperRecv (Some bytes) = Raises tag
        /\ received t1 = received t ++ [Some bytes])
   /\ incoming (Some m) t =
        (outcome_of_reply (upperRecv None),
         log_received None (set_state Disconnected t1))).
Proof.
  intros Hs Ht. pose proof (incoming_caught m t t1 e Hs Ht) as Hc. rewrite Hc.
  clear Hc. destruct t as [h sv st buf reg rcv snt]; simpl in *.
  destruct Hs as [-> | ->].
  - enter_incoming_try Ht. unfold_cpp.
    destruct (parseHttpResponse (buf ++ m)) as [len|e'|] eqn:Hp.
    + right. destruct len as [|len']; [discriminate|].
      cbn -[Nat.leb skipn List.length] in Ht.
      destruct (S len' <=? List.length (buf ++ m))%nat; [|discriminate].
      cbn -[skipn] in Ht.
      destruct (skipn (S len') (buf ++ m)) as [|b rest]; [discriminate|].
      simpl in Ht. unfold binary in *.
      destruct (upperRecv (Some (b :: rest))) as [[]|tag] eqn:Hr;
        simpl in Ht; [discriminate|].
      inversion Ht; subst; clear Ht. simpl.
      split; [reflexivity|]. split; [|reflexivity].
      exists tag, (b :: rest). auto.
    + left. inversion Ht; subst; clear Ht.
      repeat split; reflexivity.
    + discriminate.
  - right. unfold_cpp. unfold binary in *.
    destruct (upperRecv (Some m)) as [[]|tag] eqn:Hr; simpl in Ht;
      [discriminate|].
    inversion Ht; subst; clear Ht. simpl.
    split; [reflexivity|]. split; [|reflexivity].
    exists tag, m. auto.
Qed.

(** ** Parsing the response *)

Lemma parseHttpResponse_incomplete (buffer : binary) (lines : list string) :
  parseHttpLines buffer = Returns (0%nat, lines) ->
  parseHttpResponse buffer = Ret 0%nat.
Proof. intros H. enter_parseHttpResponse. rewrite H. reflexivity. Qed.

Lemma parseHttpResponse_no_lines (buffer : binary) (len : nat) :
  parseHttpLines buffer = Returns (len, []) ->
  len <> 0%nat ->
  parseHttpResponse buffer = Throw InvalidRequest.
Proof.
  intros H Hn. enter_parseHttpResponse. rewrite H.
  destruct len; [congruence | reflexivity].
Qed.

Lemma parseHttpResponse_accepts (buffer : binary) (len : nat)
      (front : string) (rest : list string) :
  parseHttpLines buffer = Returns (len, front :: rest) ->
  status_code front = 200%Z ->
  parseHttpResponse buffer = Ret len.
Proof.
  intros H Hc. enter_parseHttpResponse. rewrite H, Hc.
  destruct len; reflexivity.
Qed.

Lemma parseHttpResponse_rejects (buffer : binary) (len : nat)
      (front : string) (rest : list string) :
  parseHttpLines buffer = Returns (len, front :: rest) ->
  len <> 0%nat ->
  status_code front <> 200%Z ->
  parseHttpResponse buffer = Throw (UnexpectedCode (status_code front)).
Proof.
  intros H Hn Hc. enter_parseHttpResponse. rewrite H.
  destruct len; [congruence|]. simpl.
  apply Z.eqb_neq in Hc. rewrite Hc. reflexivity.
Qed.

Lemma parseHttpResponse_bound (buffer : binary) (len : nat) :
  (forall b n lines,
      parseHttpLines b = Returns (n, lines) -> (n <= List.length b)%nat) ->
  parseHttpResponse buffer = Ret len ->
  (len <= List.length buffer)%nat.
Proof.
  intros Hb. enter_parseHttpResponse.
  destruct (parseHttpLines buffer) as [[n lines]|tag] eqn:Hp; [|discriminate].
  apply Hb in Hp.
  destruct n; simpl; [intros H; inversion H; lia|].
  destruct lines as [|front rest]; [discriminate|].
  destruct (status_code front =? 200)%Z; simpl; [|discriminate].
  intros H; inversion H; subst; assumption.
Qed.

(** ** The handshake completes *)

(** C1. A delivery in state [Connecting] that leaves in the buffer a
    complete header block with status 200 ([len] bytes, the first line
    reading 200) followed by further bytes: the state becomes [Connected],
    exactly the [len] bytes of the block are taken off the buffer, the
    bytes behind them are delivered to the receiver, accepting them, once
    and as one message, and the buffer is empty afterwards. *)
Theorem header_then_payload (m : binary) (t : Transport) (len : nat)
        (front : string) (rest : list string) :
  mState t = Connecting ->
  parseHttpLines (mBuffer t ++ m) = Returns (len, front :: rest) ->
  status_code front = 200%Z ->
  (0 < len < List.length (mBuffer t ++ m))%nat ->
  upperRecv (Some (skipn len (mBuffer t ++ m))) = Returns tt ->
  incoming (Some m) t =
    (Ret tt,
     mkTransport (mHostname t) (mService t) Connected [] (mRegistered t)
       (received t ++ [Some (skipn len (mBuffer t ++ m))]) (sent t))
  /\ firstn len (mBuffer t ++ m) ++ skipn len (mBuffer t ++ m) = mBuffer t ++ m
  /\ List.length (firstn len (mBuffer t ++ m)) = len
  /\ skipn len (mBuffer t ++ m) <> [].
Proof.
  intros Hs Hp Hc [Hpos Hlt] Hr.
  assert (Hne : skipn len (mBuffer t ++ m) <> []).
  { intros E. apply (f_equal (@List.length byte)) in E.
    rewrite length_skipn in E. simpl in E. lia. }
  split; [|split; [apply firstn_skipn | split; [|exact Hne]]].
  - rewrite (incoming_open m t len Hs
               (parseHttpResponse_accepts _ _ _ _ Hp Hc)); [|lia|lia].
    unfold binary in *.
    destruct (skipn len (mBuffer t ++ m)) as [|b r] eqn:E; [congruence|].
    rewrite Hr. reflexivity.
  - rewrite length_firstn. lia.
Qed.

(** ** The handshake is refused *)

Lemma deliveries_dropped (later : list message_ptr) (t : Transport) :
  mState t <> Connecting -> mState t <> Connected ->
  deliveries later t = (Ret tt, t).
Proof.
  intros H1 H2. induction later as [|msg later IH]; [reflexivity|].
  simpl. unfold bind.
  rewrite (incoming_dropped msg t H1 H2). exact IH.
Qed.


(** ** Bounds *)

Lemma incoming_defined (message : message_ptr) (t : Transport) :
  (forall b n lines,
      parseHttpLines b = Returns (n, lines) -> (n <= List.length b)%nat) ->
  fst (incoming message t) <> Undef.
Proof.
  intros Hb.
  destruct (State_eqb_spec (mState t) Connecting) as [Hc|Hc].
  - destruct message as [m|].
    + destruct (parseHttpResponse (mBuffer t ++ m)) as [len|e|] eqn:Hp.
      * destruct len as [|len'].
        -- rewrite (incoming_wait m t Hc Hp). discriminate.
        -- rewrite (incoming_open m t (S len') Hc Hp);
             [|discriminate|exact (parseHttpResponse_bound _ _ Hb Hp)].
           destruct (skipn (S len') (mBuffer t ++ m)) as [|b r];
             [discriminate|].
           destruct (upperRecv (Some (b :: r))); [discriminate|].
           destruct (upperRecv None); discriminate.
      * rewrite (incoming_rejected m t e Hc Hp). discriminate.
      * exfalso. revert Hp. enter_parseHttpResponse.
        destruct (parseHttpLines _) as [[n lines]|tag]; [|discriminate].
        destruct (n =? 0)%nat; [discriminate|].
        destruct lines; [discriminate|].
        destruct (negb _); discriminate.
    + rewrite incoming_null, Hc. discriminate.
  - destruct (State_eqb_spec (mState t) Connected) as [Hd|Hd].
    + destruct message as [m|].
      * rewrite (incoming_passthrough m t Hd).
        destruct (upperRecv (Some m)); [discriminate|].
        destruct (upperRecv None); discriminate.
      * rewrite incoming_null, Hd. destruct (upperRecv None); discriminate.
    + rewrite (incoming_dropped message t Hc Hd). discriminate.
Qed.

(** C10. Provided the line splitter never reports more bytes than it was
    given: a length returned by [parseHttpResponse] is at most the size of
    the buffer, so taking that many bytes off the front of the buffer is
    within bounds and [incoming] never leaves defined behaviour; and when
    [parseHttpResponse] returns zero in state [Connecting], [incoming]
    changes nothing but the buffer, which has the new bytes appended. *)
Theorem parsed_length_in_bounds (buffer m : binary) (len : nat)
        (message : message_ptr) (t u : Transport) :
  (forall b n lines,
      parseHttpLines b = Returns (n, lines) -> (n <= List.length b)%nat) ->
  parseHttpResponse buffer = Ret len ->
  mState t = Connecting ->
  parseHttpResponse (mBuffer t ++ m) = Ret 0%nat ->
  (len <= List.length buffer)%nat
  /\ erase_front len (set_buffer buffer u) =
       (Ret tt, set_buffer (skipn len buffer) u)
  /\ fst (incoming message u) <> Undef
  /\ incoming (Some m) t =
       (Ret tt,
        mkTransport (mHostname t) (mService t) Connecting (mBuffer t ++ m)
          (mRegistered t) (received t) (sent t)).
Proof.
  intros Hb Hp Hs Hz.
  pose proof (parseHttpResponse_bound _ _ Hb Hp) as Hle.
  split; [exact Hle|]. split; [|split].
  - destruct u as [h sv st buf reg rcv snt]. unfold_cpp.
    apply Nat.leb_le in Hle. rewrite Hle. reflexivity.
  - apply incoming_defined. exact Hb.
  - rewrite (incoming_wait m t Hs Hz). unfold set_buffer. now rewrite Hs.
Qed.

(** ** Failed *)

Lemma perform_in_failed (op : operation) (t : Transport) :
  mState t = Failed -> is_start op = false ->
  mState (perform op t) = Failed
  /\ mBuffer (perform op t) = mBuffer t
  /\ received (perform op t) = received t
  /\ sent (perform op t) = sent t.
Proof.
  intros Hs Hop. destruct op as [| |message|message]; simpl in *.
  - discriminate.
  - destruct t; simpl in *. auto.
  - destruct t as [h sv st buf reg rcv snt]; simpl in *; subst st.
    unfold_cpp. auto.
  - rewrite incoming_dropped by (rewrite Hs; discriminate). auto.
Qed.

(** C9, as the code has it.  [stop], [send] and deliveries from the lower
    transport never lead out of [Failed], and they leave the buffer and
    both logs as they are; a delivery that finds the state neither
    [Connecting] nor [Connected] is dropped, the object staying exactly as
    it was.  [start], however, makes the state [Connecting] whatever it
    was, [Failed] included. *)
Theorem failed_until_started_again (ops : list operation) (t u : Transport)
        (message : message_ptr) :
  mState t = Failed ->
  forallb (fun op => negb (is_start op)) ops = true ->
  mState u <> Connecting -> mState u <> Connected ->
  (mState (perform_all ops t) = Failed
   /\ mBuffer (perform_all ops t) = mBuffer t
   /\ received (perform_all ops t) = received t
   /\ sent (perform_all ops t) = sent t)
  /\ incoming message u = (Ret tt, u)
  /\ mState (perform OpStart t) = Connecting.
Proof.
  intros Hs Hops Hu1 Hu2. split; [|split].
  - clear Hu1 Hu2. revert t Hs.
    induction ops as [|op ops IH]; intros t Hs; [simpl; auto|].
    simpl in Hops. apply andb_prop in Hops as [Hop Hops].
    apply negb_true_iff in Hop.
    destruct (perform_in_failed op t Hs Hop) as (H1 & H2 & H3 & H4).
    specialize (IH Hops (perform op t) H1).
    enter_perform_all. simpl.
    rewrite <- H2, <- H3, <- H4. exact IH.
  - apply incoming_dropped; assumption.
  - destruct t as [h sv st buf reg rcv snt]. simpl. unfold_cpp.
    match goal with |- context [lowerSend ?x] => destruct (lowerSend x) end;
      reflexivity.
Qed.

(** ** Fragmentation *)

Section Fragments.

Hypothesis recv_returns : forall message, upperRecv message = Returns tt.

Lemma deliveries_passthrough (frags : list binary) (t : Transport) :
  mState t = Connected ->
  deliveries (map Some frags) t =
    (Ret tt,
     mkTransport (mHostname t) (mService t) Connected (mBuffer t)
       (mRegistered t) (received t ++ map Some frags) (sent t)).
Proof.
  revert t. induction frags as [|f fs IH]; intros t Hs.
  - simpl. unfold ret. rewrite app_nil_r. destruct t; simpl in *.
    now subst.
  - simpl. unfold bind. rewrite (incoming_passthrough f t Hs).
    rewrite recv_returns. rewrite IH by (exact Hs). simpl.
    now rewrite <- app_assoc.
Qed.

(** The delivery that brings the last byte of the header block. *)
Lemma incoming_completes (m : binary) (t : Transport) (len : nat) :
  mState t = Connecting ->
  parseHttpResponse (mBuffer t ++ m) = Ret len ->
  len <> 0%nat -> (len <= List.length (mBuffer t ++ m))%nat ->
  exists t',
    incoming (Some m) t = (Ret tt, t')
    /\ mState t' = Connected /\ mBuffer t' = []
    /\ sent t' = sent t
    /\ payload_bytes (received t') =
         payload_bytes (received t) ++ skipn len (mBuffer t ++ m).
Proof.
  intros Hs Hp Hn Hle. rewrite (incoming_open m t len Hs Hp Hn Hle).
  destruct (skipn len (mBuffer t ++ m)) as [|b r].
  - eexists; split; [reflexivity|]. simpl.
    repeat split. now rewrite app_nil_r.
  - rewrite recv_returns. eexists; split; [reflexivity|]. simpl.
    repeat split. rewrite payload_bytes_app.
    unfold payload_bytes at 2. simpl. now rewrite app_nil_r.
Qed.

Lemma deliveries_fragments (len : nat) (front : string) (rest : list string)
      (frags : list binary) :
  status_code front = 200%Z ->
  forall t : Transport,
    mState t = Connecting ->
    (List.length (mBuffer t) < len)%nat ->
    (len <= List.length (mBuffer t ++ List.concat frags))%nat ->
    splits_by_prefix parseHttpLines (mBuffer t ++ List.concat frags) len
                     (front :: rest) ->
    exists t',
      deliveries (map Some frags) t = (Ret tt, t')
      /\ mState t' = Connected /\ mBuffer t' = []
      /\ sent t' = sent t
      /\ payload_bytes (received t') =
           payload_bytes (received t)
             ++ skipn len (mBuffer t ++ List.concat frags).
Proof.
  intros Hc. induction frags as [|f fs IH]; intros t Hs Hlt Hle Hsplit.
  - simpl in Hle. rewrite app_nil_r in Hle. lia.
  - change (List.concat (f :: fs)) with (f ++ List.concat fs) in *.
    rewrite app_assoc in Hle, Hsplit |- *.
    destruct (Nat.le_gt_cases len (List.length (mBuffer t ++ f))) as [Hin|Hout].
    + destruct (Hsplit (mBuffer t ++ f) (List.concat fs) eq_refl) as [Hfound _].
      specialize (Hfound Hin).
      pose proof (parseHttpResponse_accepts _ _ _ _ Hfound Hc) as Hp.
      destruct (incoming_completes f t len Hs Hp ltac:(lia) Hin)
        as (t1 & Hrun & Hst & Hbuf & Hsent & Hpay).
      simpl. unfold bind. rewrite Hrun.
      rewrite (deliveries_passthrough fs t1 Hst).
      eexists; split; [reflexivity|]. simpl.
      repeat split; try assumption.
      rewrite payload_bytes_app, Hpay, payload_bytes_data.
      rewrite (skipn_app len (mBuffer t ++ f) (List.concat fs)).
      replace (len - List.length (mBuffer t ++ f))%nat with 0%nat by lia.
      simpl. now rewrite <- app_assoc.
    + destruct (Hsplit (mBuffer t ++ f) (List.concat fs) eq_refl) as [_ Hnot].
      destruct (Hnot Hout) as [seen Hseen].
      pose proof (parseHttpResponse_incomplete _ _ Hseen) as Hp.
      simpl. unfold bind. rewrite (incoming_wait f t Hs Hp).
      destruct (IH (set_buffer (mBuffer t ++ f) t)) as (t' & Hrun & Hrest);
        try assumption.
      exists t'. split; [exact Hrun | exact Hrest].
Qed.

(** C2. Let the bytes in the buffer together with the bytes still to
    come begin with a complete header block of status 200, which the
    line splitter finds from the front, and let the receiver accept what
    it is given.  Then feeding the bytes to come in any number of
    fragments of any sizes, one delivery each, ends as feeding them in
    one delivery does: both return normally, in state [Connected], with
    an empty buffer, having sent nothing, and the receiver has been given
    the same bytes in the same order, namely all that follows the header
    block. *)
Theorem fragmentation_independence (frags : list binary) (t : Transport)
        (len : nat) (front : string) (rest : list string) :
  mState t = Connecting ->
  (List.length (mBuffer t) < len)%nat ->
  (len <= List.length (mBuffer t ++ List.concat frags))%nat ->
  splits_by_prefix parseHttpLines (mBuffer t ++ List.concat frags) len
                   (front :: rest) ->
  status_code front = 200%Z ->
  fst (deliveries (map Some frags) t) = Ret tt
  /\ fst (incoming (Some (List.concat frags)) t) = Ret tt
  /\ mState (snd (deliveries (map Some frags) t)) = Connected
  /\ mState (snd (incoming (Some (List.concat frags)) t)) = Connected
  /\ mBuffer (snd (deliveries (map Some frags) t)) =
       mBuffer (snd (incoming (Some (List.concat frags)) t))
  /\ sent (snd (deliveries (map Some frags) t)) =
       sent (snd (incoming (Some (List.concat frags)) t))
  /\ payload_bytes (received (snd (deliveries (map Some frags) t))) =
       payload_bytes (received (snd (incoming (Some (List.concat frags)) t)))
  /\ payload_bytes (received (snd (incoming (Some (List.concat frags)) t))) =
       payload_bytes (received t)
         ++ skipn len (mBuffer t ++ List.concat frags).
Proof.
  intros Hs Hlt Hle Hsplit Hc.
  destruct (deliveries_fragments len front rest frags Hc t Hs Hlt Hle Hsplit)
    as (t1 & Hrun1 & Hst1 & Hbuf1 & Hsent1 & Hpay1).
  destruct (Hsplit (mBuffer t ++ List.concat frags) [] (app_nil_r _))
    as [Hfound _].
  specialize (Hfound Hle).
  pose proof (parseHttpResponse_accepts _ _ _ _ Hfound Hc) as Hp.
  destruct (incoming_completes (List.concat frags) t len Hs Hp ltac:(lia) Hle)
    as (t2 & Hrun2 & Hst2 & Hbuf2 & Hsent2 & Hpay2).
  unfold binary in *. rewrite Hrun1, Hrun2. simpl.
  repeat split; congruence.
Qed.

End Fragments.

End Properties.

(** * The line splitter of the specification *)

Lemma split_lines_progress (buffer : binary) :
  forall (line : string) (lines : list string) (consumed n : nat)
         (ls : list string),
    split_lines buffer line lines consumed = (n, ls) ->
    n <> 0%nat -> (consumed < n)%nat.
Proof.
  induction buffer as [|b rest IH]; intros line lines consumed n ls H Hn.
  - simpl in H. inversion H. congruence.
  - simpl in H. destruct (Ascii.eqb (ascii_of_byte b) LF).
    + destruct (strip_cr line).
      * inversion H. lia.
      * apply IH in H; [lia | exact Hn].
    + apply IH in H; [lia | exact Hn].
Qed.

Lemma split_lines_bound (buffer : binary) :
  forall (line : string) (lines : list string) (consumed n : nat)
         (ls : list string),
    split_lines buffer line lines consumed = (n, ls) ->
    (n <= consumed + List.length buffer)%nat.
Proof.
  induction buffer as [|b rest IH]; intros line lines consumed n ls H.
  - simpl in H. inversion H. lia.
  - simpl in H. simpl List.length. destruct (Ascii.eqb (ascii_of_byte b) LF).
    + destruct (strip_cr line).
      * inversion H. lia.
      * apply IH in H. lia.
    + apply IH in H. lia.
Qed.

Lemma split_lines_prefix (p q : binary) :
  forall (line : string) (lines : list string) (consumed n : nat)
         (ls : list string),
    split_lines (p ++ q) line lines consumed = (n, ls) ->
    n <> 0%nat ->
    ((n <= consumed + List.length p)%nat ->
     split_lines p line lines consumed = (n, ls))
    /\ ((consumed + List.length p < n)%nat ->
        exists seen, split_lines p line lines consumed = (0%nat, seen)).
Proof.
  induction p as [|b p IH]; intros line lines consumed n ls H Hn.
  - pose proof (split_lines_progress _ _ _ _ _ _ H Hn) as Hlt. simpl.
    split; [lia | intros _; eexists; reflexivity].
  - simpl in H. simpl.
    destruct (Ascii.eqb (ascii_of_byte b) LF).
    + destruct (strip_cr line).
      * inversion H; subst. split; [reflexivity | lia].
      * destruct (IH _ _ _ _ _ H Hn) as [H1 H2].
        split; intros Hc; [apply H1 | apply H2]; lia.
    + destruct (IH _ _ _ _ _ H Hn) as [H1 H2].
      split; intros Hc; [apply H1 | apply H2]; lia.
Qed.

Lemma httpLines_bound (b : binary) (n : nat) (lines : list string) :
  httpLines b = Returns (n, lines) -> (n <= List.length b)%nat.
Proof.
  unfold httpLines. intros H.
  assert (H' : split_lines b EmptyString [] 0 = (n, lines)) by congruence.
  apply split_lines_bound in H'. lia.
Qed.

Lemma httpLines_splits_by_prefix (response : binary) (len : nat)
      (lines : list string) :
  httpLines response = Returns (len, lines) -> len <> 0%nat ->
  splits_by_prefix httpLines response len lines.
Proof.
  unfold httpLines at 1. intros H Hn p q Hpq. subst response.
  assert (H' : split_lines (p ++ q) EmptyString [] 0 = (len, lines))
    by congruence.
  destruct (split_lines_prefix p q _ _ _ _ _ H' Hn) as [H1 H2].
  split.
  - intros Hle. unfold httpLines. rewrite H1 by lia. reflexivity.
  - intros Hlt. destruct H2 as [seen Hseen]; [lia|].
    exists seen. unfold httpLines. now rewrite Hseen.
Qed.

(** With the splitter of the specification, fragmentation independence
    needs no assumption on the splitter: that it finds the block from the
    front is a property of it. *)
Lemma fragments_with_httpLines (upperRecv : message_ptr -> reply unit)
      (frags : list binary) (t : Transport) (len : nat) (front : string)
      (rest : list string) :
  (forall message, upperRecv message = Returns tt) ->
  mState t = Connecting ->
  (List.length (mBuffer t) < len)%nat ->
  httpLines (mBuffer t ++ List.concat frags) = Returns (len, front :: rest) ->
  status_code front = 200%Z ->
  exists t1 t2 : Transport,
    deliveries httpLines upperRecv (map Some frags) t = (Ret tt, t1)
    /\ incoming httpLines upperRecv (Some (List.concat frags)) t = (Ret tt, t2)
    /\ mState t1 = Connected /\ mState t2 = Connected
    /\ payload_bytes (received t1) = payload_bytes (received t2).
Proof.
  intros Hrecv Hs Hlt Hparse Hc.
  pose proof (httpLines_bound _ _ _ Hparse) as Hle.
  assert (Hn : len <> 0%nat) by lia.
  pose proof (httpLines_splits_by_prefix _ _ _ Hparse Hn) as Hsplit.
  destruct (deliveries_fragments httpLines upperRecv Hrecv len front rest frags
              Hc t Hs Hlt Hle Hsplit)
    as (t1 & Hrun1 & Hst1 & _ & _ & Hpay1).
  pose proof (parseHttpResponse_accepts httpLines _ _ _ _ Hparse Hc) as Hp.
  destruct (incoming_completes httpLines upperRecv Hrecv (List.concat frags)
              t len Hs Hp Hn Hle)
    as (t2 & Hrun2 & Hst2 & _ & _ & Hpay2).
  exists t1, t2. unfold binary in *.
  repeat split; try assumption. congruence.
Qed.

(** * The class at work *)

(** ** Reading status lines *)

Example status_code_established : read_status status_200 = (200%Z, false).
Proof. reflexivity. Qed.

Example status_code_forbidden : read_status status_403 = (403%Z, false).
Proof. reflexivity. Qed.

Example status_code_missing : read_status "HTTP/1.1" = (0%Z, true).
Proof. reflexivity. Qed.

Example status_code_not_a_number : read_status "HTTP/1.1 OK" = (0%Z, true).
Proof. reflexivity. Qed.

Example status_code_too_large : read_status "HTTP/1.1 4294967496" = (UINT_MAX, true).
Proof. reflexivity. Qed.

Example status_code_leading_zero : read_status "HTTP/1.1 0200 OK" = (200%Z, false).
Proof. reflexivity. Qed.

(** On the lines a proxy sends, the code read is the code written. *)
Example written_code_established : written_code status_200 = Some 200%Z.
Proof. reflexivity. Qed.

Example written_code_forbidden : written_code status_403 = Some 403%Z.
Proof. reflexivity. Qed.

Example written_code_missing : written_code "HTTP/1.1" = None.
Proof. reflexivity. Qed.

(** After a minus sign the digits are negated in the unsigned type. *)
Example status_code_negated : read_status "HTTP/1.1 -4294967096" = (200%Z, false).
Proof. reflexivity. Qed.

Example status_code_blank_line : read_status "" = (0%Z, true).
Proof. reflexivity. Qed.

Example httpLines_established :
  httpLines (bytes_of_string established) = Returns (39%nat, [status_200]).
Proof. reflexivity. Qed.

Example httpLines_unfinished :
  httpLines (bytes_of_string ("HTTP/1.1 200 OK" ++ CRLF ++ "Via: x" ++ CRLF))
  = Returns (0%nat, ["HTTP/1.1 200 OK"; "Via: x"]%string).
Proof. reflexivity. Qed.

(** ** Witnesses *)

Lemma header_then_payload_witness :
  incoming httpLines recvQuiet (Some established_abc) handshaking =
    (Ret tt,
     mkTransport "example.org" "443" Connected [] true
       [Some (bytes_of_string "abc")] [])
  /\ firstn 39 established_abc = bytes_of_string established.
Proof.
  destruct (header_then_payload httpLines recvQuiet established_abc handshaking
              39 status_200 [])
    as (Hrun & Hsplit & Hlen & Hrest).
  - reflexivity.
  - reflexivity.
  - reflexivity.
  - simpl. lia.
  - reflexivity.
  - split; [exact Hrun | reflexivity].
Defined.

Lemma fragmentation_independence_witness :
  List.concat established_abc_fragments = established_abc
  /\ mState (snd (deliveries httpLines recvQuiet
                   (map Some established_abc_fragments) handshaking)) = Connected
  /\ payload_bytes (received (snd (deliveries httpLines recvQuiet
                   (map Some established_abc_fragments) handshaking)))
     = payload_bytes (received (snd (incoming httpLines recvQuiet
                   (Some (List.concat established_abc_fragments)) handshaking)))
  /\ payload_bytes (received (snd (incoming httpLines recvQuiet
                   (Some (List.concat established_abc_fragments)) handshaking)))
     = bytes_of_string "abc".
Proof.
  destruct (fragmentation_independence httpLines recvQuiet
              (fun _ => eq_refl) established_abc_fragments handshaking
              39 status_200 [])
    as (_ & _ & Hst & _ & _ & _ & Hsame & Hall).
  - reflexivity.
  - simpl. lia.
  - simpl. lia.
  - apply httpLines_splits_by_prefix; [reflexivity | discriminate].
  - reflexivity.
  - split; [reflexivity|]. split; [exact Hst|]. split; [exact Hsame|].
    rewrite Hall. reflexivity.
Defined.


Lemma parsed_length_in_bounds_witness :
  (39 <= List.length established_abc)%nat
  /\ erase_front 39 (set_buffer established_abc handshaking)
     = (Ret tt, set_buffer (skipn 39 established_abc) handshaking)
  /\ fst (incoming httpLines recvQuiet (Some established_abc) handshaking) <> Undef
  /\ incoming httpLines recvQuiet (Some (bytes_of_string "HTTP/1.1 2")) handshaking
     = (Ret tt,
        mkTransport "example.org" "443" Connecting (bytes_of_string "HTTP/1.1 2")
          true [] []).
Proof.
  apply (parsed_length_in_bounds httpLines recvQuiet established_abc
           (bytes_of_string "HTTP/1.1 2") 39 (Some established_abc)
           handshaking handshaking).
  - exact httpLines_bound.
  - reflexivity.
  - reflexivity.
  - reflexivity.
Defined.

Lemma exception_inside_incoming_witness :
  incoming httpLines recvQuiet (Some (bytes_of_string forbidden)) handshaking
  = (Ret tt,
     set_state Failed (set_buffer (bytes_of_string forbidden) handshaking)).
Proof.
  destruct (exception_inside_incoming httpLines recvQuiet
              (bytes_of_string forbidden) handshaking
              (set_buffer (bytes_of_string forbidden) handshaking)
              (UnexpectedCode 403))
    as [(_ & _ & _ & Hrun & _) | (Hst & _)].
  - left. reflexivity.
  - reflexivity.
  - exact Hrun.
  - discriminate Hst.
Defined.

Lemma failed_until_started_again_witness :
  mState (perform_all httpLines sendAccepts recvQuiet
            [OpStop; OpSend (bytes_of_string "abc");
             OpIncoming (Some (bytes_of_string established)); OpIncoming None]
            broken) = Failed
  /\ incoming httpLines recvQuiet (Some (bytes_of_string established)) fresh
     = (Ret tt, fresh)
  /\ mState (perform httpLines sendAccepts recvQuiet OpStart broken) = Connecting.
Proof.
  destruct (failed_until_started_again httpLines sendAccepts recvQuiet
              [OpStop; OpSend (bytes_of_string "abc");
               OpIncoming (Some (bytes_of_string established)); OpIncoming None]
              broken fresh (Some (bytes_of_string established)))
    as ((Hst & _) & Hdrop & Hstart).
  - reflexivity.
  - reflexivity.
  - discriminate.
  - discriminate.
  - split; [exact Hst|]. split; [exact Hdrop | exact Hstart].
Defined.

(** ** Where the code differs from what is claimed of it *)


(** C5: a message with no bytes is a message, not the end of the stream.  In
    state [Connected] it is passed on as it is and the state stays
    [Connected]; in state [Connecting] it is appended to the buffer, which
    is parsed again, and the state stays [Connecting]. *)
Lemma empty_message_is_data :
  incoming httpLines recvQuiet (Some []) tunnelling
    = (Ret tt, log_received (Some []) tunnelling)
  /\ mState (snd (incoming httpLines recvQuiet (Some []) tunnelling))
     <> Disconnected
  /\ received (snd (incoming httpLines recvQuiet (Some []) tunnelling))
     = [Some []]
  /\ mState (snd (incoming httpLines recvQuiet (Some []) handshaking))
     <> Failed.
Proof. repeat split; try reflexivity; simpl; discriminate. Qed.

(** C7: the lower transport refuses the request, or throws; either way the
    state is [Connecting] afterwards, and the refusal is not reported. *)
Lemma start_when_send_fails :
  mState fresh = Disconnected
  /\ sendRefuses (bytes_of_string (generateHttpRequest fresh)) = Returns false
  /\ fst (start sendRefuses fresh) = Ret tt
  /\ mState (snd (start sendRefuses fresh)) = Connecting
  /\ fst (start sendThrows fresh) = Throw (Foreign 1)
  /\ mState (snd (start sendThrows fresh)) = Connecting.
Proof. repeat split; reflexivity. Qed.

(** C8: the receiver throws during pass-through.  The exception is caught,
    but the state becomes [Disconnected], not [Failed], and the end of the
    stream is delivered after it. *)
Lemma receiver_throws_while_connected :
  incoming_try httpLines recvChokes (bytes_of_string "abc") tunnelling
    = (Throw (Foreign 2), log_received (Some (bytes_of_string "abc")) tunnelling)
  /\ mState (snd (incoming httpLines recvChokes
                   (Some (bytes_of_string "abc")) tunnelling)) = Disconnected
  /\ mState (snd (incoming httpLines recvChokes
                   (Some (bytes_of_string "abc")) tunnelling)) <> Failed
  /\ received (snd (incoming httpLines recvChokes
                     (Some (bytes_of_string "abc")) tunnelling))
     = [Some (bytes_of_string "abc"); None].
Proof. repeat split; try reflexivity; simpl; discriminate. Qed.

(** C9: [start] on a failed object makes it [Connecting] again, and the
    handshake can then complete. *)
Lemma start_leaves_failed :
  mState broken = Failed
  /\ mState (perform httpLines sendAccepts recvQuiet OpStart broken) = Connecting
  /\ mState (perform_all httpLines sendAccepts recvQuiet
               [OpStart; OpIncoming (Some (bytes_of_string established))]
               broken) = Connected.
Proof. repeat split; reflexivity. Qed.


(** * Further properties of the class *)

Section Further.

Variable parseHttpLines : binary -> reply (nat * list string).
Variable lowerSend : binary -> reply bool.
Variable upperRecv : message_ptr -> reply unit.

Local Abbreviation parseHttpResponse := (parseHttpResponse parseHttpLines).
Local Abbreviation incoming := (incoming parseHttpLines upperRecv).
Local Abbreviation deliveries := (deliveries parseHttpLines upperRecv).
Local Abbreviation start := (start lowerSend).
Local Abbreviation send := (send lowerSend).
Local Abbreviation perform := (perform parseHttpLines lowerSend upperRecv).
Local Abbreviation perform_all := (perform_all parseHttpLines lowerSend upperRecv).

(** ** What [parseHttpResponse] can return *)

Lemma parseHttpResponse_defined (buffer : binary) :
  parseHttpResponse buffer <> Undef.
Proof.
  enter_parseHttpResponse.
  destruct (parseHttpLines buffer) as [[n lines]|tag]; [|discriminate].
  destruct (n =? 0)%nat; [discriminate|].
  destruct lines; [discriminate|].
  destruct (negb _); discriminate.
Qed.

Lemma parseHttpResponse_inv (buffer : binary) (len : nat) :
  parseHttpResponse buffer = Ret len -> len <> 0%nat ->
  exists front rest,
    parseHttpLines buffer = Returns (len, front :: rest)
    /\ status_code front = 200%Z.
Proof.
  enter_parseHttpResponse.
  destruct (parseHttpLines buffer) as [[n lines]|tag]; [|discriminate].
  destruct n as [|n']; simpl; [intros H Hn; inversion H; congruence|].
  destruct lines as [|front rest]; [discriminate|].
  destruct (status_code front =? 200)%Z eqn:Hc; simpl; [|discriminate].
  intros H _. inversion H; subst. exists front, rest.
  split; [reflexivity | now apply Z.eqb_eq].
Qed.

Lemma parseHttpResponse_zero_inv (buffer : binary) :
  parseHttpResponse buffer = Ret 0%nat ->
  exists lines, parseHttpLines buffer = Returns (0%nat, lines).
Proof.
  enter_parseHttpResponse.
  destruct (parseHttpLines buffer) as [[n lines]|tag]; [|discriminate].
  destruct n as [|n']; simpl; [intros _; now exists lines|].
  destruct lines as [|front rest]; [discriminate|].
  destruct (status_code front =? 200)%Z; simpl; discriminate.
Qed.

(** X9. [parseHttpResponse] returns a length other than 0 exactly for a
    block whose first line reads 200, the length being the one the splitter
    reported and the lines after the first playing no part; it returns 0
    exactly when the splitter reported 0. *)
Theorem parseHttpResponse_returns (buffer : binary) (len : nat) :
  (parseHttpResponse buffer = Ret (S len) <->
   exists front rest,
     parseHttpLines buffer = Returns (S len, front :: rest)
     /\ status_code front = 200%Z)
  /\ (parseHttpResponse buffer = Ret 0%nat <->
      exists lines, parseHttpLines buffer = Returns (0%nat, lines)).
Proof.
  split; split.
  - intros H. apply parseHttpResponse_inv; [exact H | discriminate].
  - intros (front & rest & H & Hc).
    exact (parseHttpResponse_accepts parseHttpLines _ _ _ _ H Hc).
  - apply parseHttpResponse_zero_inv.
  - intros (lines & H).
    exact (parseHttpResponse_incomplete parseHttpLines _ _ H).
Qed.

(** ** One delivery in state [Connecting], all cases *)

Lemma incoming_overrun (m : binary) (t : Transport) (len : nat) :
  mState t = Connecting ->
  parseHttpResponse (mBuffer t ++ m) = Ret len ->
  (List.length (mBuffer t ++ m) < len)%nat ->
  incoming (Some m) t =
    (Undef, set_state Connected (set_buffer (mBuffer t ++ m) t)).
Proof.
  intros Hs Hp Hlt.
  destruct t as [h sv st buf reg rcv snt]; simpl in *; subst st.
  unfold_cpp. rewrite Hp.
  destruct len as [|len']; [lia|].
  apply Nat.leb_gt in Hlt.
  cbn -[Nat.leb skipn List.length]. rewrite Hlt. reflexivity.
Qed.

Lemma incoming_connecting_cases (m : binary) (t : Transport) :
  mState t = Connecting ->
  (parseHttpResponse (mBuffer t ++ m) = Ret 0%nat
   /\ incoming (Some m) t = (Ret tt, set_buffer (mBuffer t ++ m) t))
  \/ (exists e,
        parseHttpResponse (mBuffer t ++ m) = Throw e
        /\ incoming (Some m) t =
             (Ret tt, set_state Failed (set_buffer (mBuffer t ++ m) t)))
  \/ (exists len,
        parseHttpResponse (mBuffer t ++ m) = Ret (S len)
        /\ (List.length (mBuffer t ++ m) < S len)%nat
        /\ incoming (Some m) t =
             (Undef, set_state Connected (set_buffer (mBuffer t ++ m) t)))
  \/ (exists len,
        parseHttpResponse (mBuffer t ++ m) = Ret (S len)
        /\ (S len <= List.length (mBuffer t ++ m))%nat
        /\ incoming (Some m) t =
             match skipn (S len) (mBuffer t ++ m) with
             | [] => (Ret tt, set_buffer [] (set_state Connected t))
             | b :: r =>
                 match upperRecv (Some (b :: r)) with
                 | Returns _ =>
                     (Ret tt,
                      set_buffer []
                        (log_received (Some (b :: r)) (set_state Connected t)))
                 | Raises _ =>
                     (outcome_of_reply (upperRecv None),
                      log_received None
                        (set_state Disconnected
                           (log_received (Some (b :: r))
                              (set_buffer (b :: r) t))))
                 end
             end).
Proof.
  intros Hs.
  destruct (parseHttpResponse (mBuffer t ++ m)) as [len|e|] eqn:Hp.
  - destruct len as [|len'].
    + left. split; [reflexivity|].
      exact (incoming_wait parseHttpLines upperRecv m t Hs Hp).
    + destruct (Nat.le_gt_cases (S len') (List.length (mBuffer t ++ m)))
        as [Hle|Hgt].
      * right; right; right. exists len'. split; [reflexivity|].
        split; [exact Hle|].
        apply (incoming_open parseHttpLines upperRecv m t (S len') Hs Hp);
          [discriminate | exact Hle].
      * right; right; left. exists len'. split; [reflexivity|].
        split; [exact Hgt|].
        exact (incoming_overrun m t (S len') Hs Hp Hgt).
  - right; left. exists e. split; [reflexivity|].
    exact (incoming_rejected parseHttpLines upperRecv m t e Hs Hp).
  - exfalso. exact (parseHttpResponse_defined _ Hp).
Qed.

(** ** What an operation leaves alone *)

Lemma incoming_frame (message : message_ptr) (t : Transport) :
  mHostname (snd (incoming message t)) = mHostname t
  /\ mService (snd (incoming message t)) = mService t
  /\ mRegistered (snd (incoming message t)) = mRegistered t
  /\ sent (snd (incoming message t)) = sent t.
Proof.
  destruct (State_eqb_spec (mState t) Connecting) as [Hc|Hc].
  - destruct message as [m|].
    + destruct (incoming_connecting_cases m t Hc)
        as [[_ H] | [(e & _ & H) | [(len & _ & _ & H) | (len & _ & _ & H)]]];
        rewrite H; try (simpl; auto; fail).
      destruct (skipn (S len) (mBuffer t ++ m)) as [|b r]; [simpl; auto|].
      destruct (upperRecv (Some (b :: r))); simpl; auto.
    + rewrite (incoming_null parseHttpLines upperRecv), Hc. simpl; auto.
  - destruct (State_eqb_spec (mState t) Connected) as [Hd|Hd].
    + destruct message as [m|].
      * rewrite (incoming_passthrough parseHttpLines upperRecv m t Hd).
        destruct (upperRecv (Some m)); simpl; auto.
      * rewrite (incoming_null parseHttpLines upperRecv), Hd. simpl; auto.
    + rewrite (incoming_dropped parseHttpLines upperRecv message t Hc Hd).
      auto.
Qed.

Lemma start_result (t : Transport) :
  snd (start t) =
    log_sent (bytes_of_string (generateHttpRequest t))
      (set_state Connecting (set_registered true t)).
Proof.
  destruct t as [h sv st buf reg rcv snt]. unfold_cpp.
  unfold generateHttpRequest; simpl.
  match goal with |- context [lowerSend ?x] => destruct (lowerSend x) end;
    reflexivity.
Qed.

Lemma send_result (message : binary) (t : Transport) :
  snd (send message t) =
    if State_eqb (mState t) Connected then log_sent message t else t.
Proof.
  destruct t as [h sv st buf reg rcv snt]. destruct st; unfold_cpp;
    reflexivity.
Qed.

Lemma perform_keeps_target (op : operation) (t : Transport) :
  mHostname (perform op t) = mHostname t
  /\ mService (perform op t) = mService t.
Proof.
  destruct op as [| |message|message]; simpl.
  - rewrite start_result. auto.
  - destruct t; auto.
  - rewrite send_result. destruct (State_eqb _ _); auto.
  - destruct (incoming_frame message t) as (H1 & H2 & _). auto.
Qed.

Lemma perform_all_keeps_target (ops : list operation) (t : Transport) :
  mHostname (perform_all ops t) = mHostname t
  /\ mService (perform_all ops t) = mService t.
Proof.
  revert t. induction ops as [|op ops IH]; intros t; [simpl; auto|].
  enter_perform_all. simpl.
  destruct (IH (perform op t)) as [H1 H2].
  destruct (perform_keeps_target op t) as [H3 H4].
  enter_perform_all. split; congruence.
Qed.

(** X11. A delivery never sends anything to the lower transport and never
    changes the registration; [start], [stop] and [send] never deliver
    anything to the receiver and never touch the buffer. *)
Theorem operations_keep_to_their_side (message : message_ptr) (m : binary)
        (t : Transport) :
  (sent (snd (incoming message t)) = sent t
   /\ mRegistered (snd (incoming message t)) = mRegistered t)
  /\ (received (snd (start t)) = received t
      /\ mBuffer (snd (start t)) = mBuffer t)
  /\ (received (snd (stop t)) = received t
      /\ mBuffer (snd (stop t)) = mBuffer t
      /\ mState (snd (stop t)) = mState t)
  /\ (received (snd (send m t)) = received t
      /\ mBuffer (snd (send m t)) = mBuffer t
      /\ mState (snd (send m t)) = mState t).
Proof.
  split; [|split; [|split]].
  - destruct (incoming_frame message t) as (_ & _ & H1 & H2). auto.
  - rewrite start_result. auto.
  - destruct t; simpl; auto.
  - rewrite send_result. destruct (State_eqb _ _); auto.
Qed.

(** X1. The constructor succeeds only over an active lower transport, and
    then, whatever is done with the object afterwards, every [start] makes
    the state [Connecting] and sends one message, the CONNECT request for the
    hostname and service the constructor was given. *)
Theorem start_sends_the_constructor_target (lowerActive : bool)
        (hostname service : string) (t0 : Transport) (ops : list operation) :
  create lowerActive hostname service = Ret t0 ->
  lowerActive = true
  /\ mState t0 = Disconnected
  /\ mState (perform OpStart (perform_all ops t0)) = Connecting
  /\ sent (perform OpStart (perform_all ops t0)) =
       sent (perform_all ops t0)
         ++ [bytes_of_string
               ("CONNECT " ++ hostname ++ ":" ++ service ++ " HTTP/1.1" ++ CRLF
                  ++ "Host: " ++ hostname ++ CRLF ++ CRLF)%string].
Proof.
  unfold create. destruct lowerActive; simpl; [|discriminate].
  intros H. inversion H; subst; clear H.
  split; [reflexivity|]. split; [reflexivity|].
  destruct (perform_all_keeps_target ops
              (mkTransport hostname service Disconnected [] false [] []))
    as [Hh Hs].
  simpl in Hh, Hs. simpl. rewrite start_result.
  split; [reflexivity|]. simpl. unfold generateHttpRequest.
  now rewrite Hh, Hs.
Qed.

(** ** The states a delivery can lead to *)

(** X4. A delivery in state [Connected] leaves the state [Connected] or makes
    it [Disconnected], never [Failed] or [Connecting]; a delivery in state
    [Connecting] makes the state [Disconnected] only if it brought a message
    that completed a header block, bytes were left behind the block, and the
    receiver threw on exactly these bytes when this delivery handed them
    over, the end of the stream being delivered right after them; and a
    delivery in any other state leaves the object exactly as it was. *)
Theorem states_after_a_delivery (message : message_ptr) (t : Transport) :
  match mState t with
  | Connected =>
      mState (snd (incoming message t)) = Connected
      \/ mState (snd (incoming message t)) = Disconnected
  | Connecting =>
      mState (snd (incoming message t)) = Disconnected ->
      exists (m : binary) (len tag : nat),
        message = Some m
        /\ parseHttpResponse (mBuffer t ++ m) = Ret len
        /\ len <> 0%nat
        /\ skipn len (mBuffer t ++ m) <> []
        /\ upperRecv (Some (skipn len (mBuffer t ++ m))) = Raises tag
        /\ received (snd (incoming message t)) =
             received t ++ [Some (skipn len (mBuffer t ++ m)); None]
  | _ => incoming message t = (Ret tt, t)
  end.
Proof.
  destruct (mState t) eqn:Hs.
  - apply (incoming_dropped parseHttpLines upperRecv); rewrite Hs; discriminate.
  - destruct message as [m|].
    + destruct (incoming_connecting_cases m t Hs)
        as [[_ H] | [(e & _ & H) | [(len & _ & _ & H) | (len & Hp & _ & H)]]];
        rewrite H; cbn -[skipn]; try (rewrite Hs); try discriminate.
      destruct (skipn (S len) (mBuffer t ++ m)) as [|b r] eqn:Hrest;
        [simpl; discriminate|].
      destruct (upperRecv (Some (b :: r))) as [u|tag] eqn:Hr;
        [simpl; discriminate|].
      intros _. exists m, (S len), tag. rewrite Hrest.
      split; [reflexivity|]. split; [exact Hp|]. split; [discriminate|].
      split; [discriminate|]. split; [exact Hr|].
      simpl. now rewrite <- app_assoc.
    + rewrite (incoming_null parseHttpLines upperRecv), Hs. simpl. discriminate.
  - destruct message as [m|].
    + rewrite (incoming_passthrough parseHttpLines upperRecv m t Hs).
      destruct (upperRecv (Some m)); simpl; auto.
    + rewrite (incoming_null parseHttpLines upperRecv), Hs. simpl. auto.
  - apply (incoming_dropped parseHttpLines upperRecv); rewrite Hs; discriminate.
Qed.

(** X3. The state becomes [Connected] in one way only: by a delivery of
    bytes in state [Connecting] that completes, in the buffer, a header block
    whose first line reads 200.  No [start], [stop], [send], end of stream or
    other delivery makes an object [Connected] that was not. *)
Theorem connected_only_by_a_200_block (op : operation) (t : Transport) :
  mState t <> Connected ->
  mState (perform op t) = Connected ->
  exists (m : binary) (len : nat) (front : string) (rest : list string),
    op = OpIncoming (Some m)
    /\ mState t = Connecting
    /\ parseHttpLines (mBuffer t ++ m) = Returns (len, front :: rest)
    /\ len <> 0%nat
    /\ status_code front = 200%Z.
Proof.
  intros Hn Hc. destruct op as [| |message|message]; simpl in Hc.
  - rewrite start_result in Hc. discriminate.
  - destruct t; simpl in *. congruence.
  - rewrite send_result in Hc. destruct (State_eqb_spec (mState t) Connected);
      simpl in Hc; congruence.
  - destruct (State_eqb_spec (mState t) Connecting) as [Hs|Hs].
    + destruct message as [m|].
      * destruct (incoming_connecting_cases m t Hs)
          as [[_ H] | [(e & _ & H) | [(len & Hp & _ & _) | (len & Hp & _ & _)]]].
        -- rewrite H in Hc. simpl in Hc. congruence.
        -- rewrite H in Hc. discriminate.
        -- destruct (parseHttpResponse_inv _ _ Hp) as (front & rest & Hl & H200);
             [discriminate|].
           exists m, (S len), front, rest. repeat split; auto.
        -- destruct (parseHttpResponse_inv _ _ Hp) as (front & rest & Hl & H200);
             [discriminate|].
           exists m, (S len), front, rest. repeat split; auto.
      * rewrite (incoming_null parseHttpLines upperRecv), Hs in Hc. discriminate.
    + rewrite (incoming_dropped parseHttpLines upperRecv message t Hs Hn) in Hc.
      simpl in Hc. congruence.
Qed.

(** ** The handshake, delivery by delivery *)

(** X5. A delivery in state [Connecting] that completes a header block of
    status 200 with no byte behind it makes the state [Connected] and empties
    the buffer without a call to the receiver: no empty message marks the
    opening of the tunnel. *)
Theorem header_alone (m : binary) (t : Transport) (len : nat)
        (front : string) (rest : list string) :
  mState t = Connecting ->
  parseHttpLines (mBuffer t ++ m) = Returns (len, front :: rest) ->
  status_code front = 200%Z ->
  len <> 0%nat ->
  len = List.length (mBuffer t ++ m) ->
  incoming (Some m) t =
    (Ret tt,
     mkTransport (mHostname t) (mService t) Connected [] (mRegistered t)
       (received t) (sent t)).
Proof.
  intros Hs Hp Hc Hn Hlen.
  rewrite (incoming_open parseHttpLines upperRecv m t len Hs
             (parseHttpResponse_accepts parseHttpLines _ _ _ _ Hp Hc) Hn);
    [|lia].
  rewrite Hlen, skipn_all. reflexivity.
Qed.

Lemma set_buffer_twice (b1 b2 : binary) (t : Transport) :
  set_buffer b2 (set_buffer b1 t) = set_buffer b2 t.
Proof. reflexivity. Qed.

(** X7. As long as the buffer, after each delivery, holds no complete block,
    a run of deliveries in state [Connecting] hands nothing to the receiver
    and changes nothing but the buffer, which grows by exactly the bytes
    delivered, in order; the code sets no limit to it. *)
Theorem handshake_waits (frags : list binary) (t : Transport) :
  mState t = Connecting ->
  (forall pre post : list binary,
      frags = pre ++ post -> pre <> [] ->
      parseHttpResponse (mBuffer t ++ List.concat pre) = Ret 0%nat) ->
  deliveries (map Some frags) t =
    (Ret tt,
     mkTransport (mHostname t) (mService t) Connecting
       (mBuffer t ++ List.concat frags) (mRegistered t) (received t) (sent t)).
Proof.
  revert t. induction frags as [|f fs IH]; intros t Hs Hwait.
  - simpl. unfold ret. rewrite app_nil_r. destruct t; simpl in *. now subst.
  - simpl. unfold bind.
    assert (Hp : parseHttpResponse (mBuffer t ++ f) = Ret 0%nat).
    { specialize (Hwait [f] fs eq_refl ltac:(discriminate)).
      simpl in Hwait. now rewrite app_nil_r in Hwait. }
    rewrite (incoming_wait parseHttpLines upperRecv f t Hs Hp).
    rewrite IH.
    + simpl. now rewrite <- app_assoc.
    + exact Hs.
    + intros pre post Hsplit Hne. simpl. rewrite <- app_assoc.
      apply (Hwait (f :: pre) post); [now rewrite Hsplit | discriminate].
Qed.

(** X6. In state [Connected] every message delivered is handed to the
    receiver, accepting it, as it came: one call for each delivery, in the
    order of arrival, neither joined nor split, the empty message included;
    state and buffer stay as they are. *)
Theorem passthrough_in_order (messages : list binary) (t : Transport) :
  mState t = Connected ->
  Forall (fun m => upperRecv (Some m) = Returns tt) messages ->
  deliveries (map Some messages) t =
    (Ret tt,
     mkTransport (mHostname t) (mService t) Connected (mBuffer t)
       (mRegistered t) (received t ++ map Some messages) (sent t)).
Proof.
  revert t. induction messages as [|m ms IH]; intros t Hs Hall.
  - simpl. unfold ret. rewrite app_nil_r. destruct t; simpl in *. now subst.
  - inversion Hall as [|? ? Hm Hms]; subst.
    simpl. unfold bind.
    rewrite (incoming_passthrough parseHttpLines upperRecv m t Hs), Hm.
    rewrite IH by assumption. simpl. now rewrite <- app_assoc.
Qed.

(** X8. The end of the stream, delivered in state [Connected] to a receiver
    that takes it, is the last thing the receiver gets: the state is
    [Disconnected] from then on and every later delivery is dropped. *)
Theorem end_of_stream_is_final (later : list message_ptr) (t : Transport) :
  mState t = Connected ->
  upperRecv None = Returns tt ->
  deliveries (None :: later) t =
    (Ret tt,
     mkTransport (mHostname t) (mService t) Disconnected (mBuffer t)
       (mRegistered t) (received t ++ [None]) (sent t)).
Proof.
  intros Hs Hr. simpl. unfold bind.
  rewrite (incoming_null parseHttpLines upperRecv), Hs, Hr. simpl.
  apply (deliveries_dropped parseHttpLines upperRecv); simpl; discriminate.
Qed.

(** ** What the buffer is left with *)

(** X12. Neither a failed handshake nor [start] empties the buffer.  When a
    response has been refused and the object is started again, the refused
    block is still in front of whatever arrives next, so that, with a
    splitter that finds it there again, the next delivery fails as well and
    nothing reaches the receiver. *)
Theorem restart_after_refusal (m m' : binary) (t : Transport) (len : nat)
        (front : string) (rest : list string) :
  mState t = Connecting ->
  parseHttpLines (mBuffer t ++ m) = Returns (len, front :: rest) ->
  parseHttpLines ((mBuffer t ++ m) ++ m') = Returns (len, front :: rest) ->
  len <> 0%nat ->
  status_code front <> 200%Z ->
  mState (perform (OpIncoming (Some m)) t) = Failed
  /\ mState (perform OpStart (perform (OpIncoming (Some m)) t)) = Connecting
  /\ mBuffer (perform OpStart (perform (OpIncoming (Some m)) t)) = mBuffer t ++ m
  /\ mState (perform_all [OpIncoming (Some m); OpStart; OpIncoming (Some m')] t)
     = Failed
  /\ received (perform_all [OpIncoming (Some m); OpStart; OpIncoming (Some m')] t)
     = received t.
Proof.
  intros Hs Hp Hp' Hn Hc.
  pose proof (parseHttpResponse_rejects parseHttpLines _ _ _ _ Hp Hn Hc) as H1.
  pose proof (parseHttpResponse_rejects parseHttpLines _ _ _ _ Hp' Hn Hc) as H2.
  enter_perform_all. simpl.
  rewrite (incoming_rejected parseHttpLines upperRecv m t _ Hs H1). simpl.
  rewrite start_result. simpl.
  split; [reflexivity|]. split; [reflexivity|]. split; [reflexivity|].
  match goal with
  | |- context [incoming (Some m') ?x] =>
      rewrite (incoming_rejected parseHttpLines upperRecv m' x _ eq_refl H2)
  end.
  split; reflexivity.
Qed.

(** X13. The class does not check the length it is given: when the splitter
    reports, under a first line that reads 200, more bytes than the buffer
    holds, [erase] is asked for a range past the end of the buffer, which is
    undefined behaviour; the state has been made [Connected] by then. *)
Theorem erase_past_the_end (m : binary) (t : Transport) (len : nat)
        (front : string) (rest : list string) :
  mState t = Connecting ->
  parseHttpLines (mBuffer t ++ m) = Returns (len, front :: rest) ->
  status_code front = 200%Z ->
  (List.length (mBuffer t ++ m) < len)%nat ->
  incoming (Some m) t =
    (Undef,
     mkTransport (mHostname t) (mService t) Connected (mBuffer t ++ m)
       (mRegistered t) (received t) (sent t)).
Proof.
  intros Hs Hp Hc Hlt.
  exact (incoming_overrun m t len Hs
           (parseHttpResponse_accepts parseHttpLines _ _ _ _ Hp Hc) Hlt).
Qed.

End Further.

(** ** Reading a status line *)

Lemma digit_is_no_space (c : ascii) : isdigit c = true -> isspace c = false.
Proof.
  destruct c as [[] [] [] [] [] [] [] []]; try discriminate; reflexivity.
Qed.

Lemma digit_is_no_sign (c : ascii) :
  isdigit c = true -> Ascii.eqb c "-" = false /\ Ascii.eqb c "+" = false.
Proof.
  destruct c as [[] [] [] [] [] [] [] []]; try discriminate; split; reflexivity.
Qed.

Lemma take_word_app (w r : string) (c : ascii) :
  all_chars (fun x => negb (isspace x)) w = true ->
  isspace c = true ->
  take_word (w ++ String c r) = (w, String c r).
Proof.
  intros Hw Hc. induction w as [|x w IH]; cbn [append take_word].
  - now rewrite Hc.
  - cbn [all_chars] in Hw. apply andb_prop in Hw as [Hx Hw].
    apply negb_true_iff in Hx. rewrite Hx, (IH Hw). reflexivity.
Qed.

Lemma read_digits_app (digits reason : string) :
  all_chars isdigit digits = true ->
  no_digit_ahead reason = true ->
  forall (acc : Z) (count : nat),
    read_digits (digits ++ reason) acc count =
      (decimal digits acc, (count + String.length digits)%nat, reason).
Proof.
  intros Hd Hr. induction digits as [|c digits IH]; intros acc count;
    cbn [append read_digits decimal String.length].
  - rewrite Nat.add_0_r. destruct reason as [|x reason]; [reflexivity|].
    cbn [no_digit_ahead] in Hr. apply negb_true_iff in Hr.
    cbn [read_digits]. now rewrite Hr.
  - cbn [all_chars] in Hd. apply andb_prop in Hd as [Hc Hd].
    rewrite Hc, (IH Hd). now rewrite Nat.add_succ_r.
Qed.

(** X10. A status line made of a protocol token, one space, a run of decimal
    digits and a reason that does not go on with a digit: [code] is read as
    the value of the digits when that is at most [UINT_MAX], and as
    [UINT_MAX], the extraction failing, when it is more.  The protocol token
    is read and not looked at, so the line counts as 200 exactly when the
    digits have the value 200, whatever the token and the reason. *)
Theorem status_line_read (protocol digits reason : string) :
  protocol <> EmptyString ->
  all_chars (fun c => negb (isspace c)) protocol = true ->
  digits <> EmptyString ->
  all_chars isdigit digits = true ->
  no_digit_ahead reason = true ->
  read_status (protocol ++ String " " (digits ++ reason)) =
    (if (UINT_MAX <? decimal digits 0)%Z then UINT_MAX else decimal digits 0,
     (UINT_MAX <? decimal digits 0)%Z)
  /\ (status_code (protocol ++ String " " (digits ++ reason)) = 200%Z
      <-> decimal digits 0 = 200%Z).
Proof.
  intros Hp Hw Hd Hdig Hr.
  assert (Hread :
    read_status (protocol ++ String " " (digits ++ reason)) =
    (if (UINT_MAX <? decimal digits 0)%Z then UINT_MAX else decimal digits 0,
     (UINT_MAX <? decimal digits 0)%Z)).
  { unfold read_status, extract_string, sentry. cbn [good failbit eofbit negb andb unread].
    destruct protocol as [|p0 ps]; [congruence|].
    pose proof Hw as Hw'. cbn [all_chars] in Hw'.
    apply andb_prop in Hw' as [Hp0 _].
    apply negb_true_iff in Hp0.
    cbn [append skipws]. rewrite Hp0. cbn [unread].
    change (String p0 (ps ++ String " " (digits ++ reason)))
      with (String p0 ps ++ String " " (digits ++ reason))%string.
    rewrite (take_word_app (String p0 ps) (digits ++ reason) " " Hw eq_refl).
    unfold extract_uint, sentry. cbn [good failbit eofbit negb andb unread].
    destruct digits as [|d0 ds]; [congruence|].
    pose proof Hdig as Hdig'. cbn [all_chars] in Hdig'.
    apply andb_prop in Hdig' as [Hd0 _].
    cbn [skipws append]. change (isspace " ") with true. cbv iota.
    rewrite (digit_is_no_space d0 Hd0). cbn [unread].
    unfold take_sign. destruct (digit_is_no_sign d0 Hd0) as [Hm Hpl].
    rewrite Hm, Hpl.
    change (String d0 (ds ++ reason)) with (String d0 ds ++ reason)%string.
    rewrite (read_digits_app (String d0 ds) reason Hdig Hr 0%Z 0%nat).
    cbn [String.length Nat.add Nat.eqb].
    destruct (UINT_MAX <? decimal (String d0 ds) 0)%Z; reflexivity. }
  split; [exact Hread|].
  unfold status_code. rewrite Hread. cbn [fst].
  destruct (UINT_MAX <? decimal digits 0)%Z eqn:Hov.
  - apply Z.ltb_lt in Hov. unfold UINT_MAX in *. split; intros H; lia.
  - reflexivity.
Qed.

(** ** Witnesses of the further properties *)

Lemma start_sends_the_constructor_target_witness :
  mState (perform httpLines sendAccepts recvQuiet OpStart
            (perform_all httpLines sendAccepts recvQuiet
               [OpStart; OpIncoming (Some (bytes_of_string forbidden))] fresh))
    = Connecting
  /\ sent (perform httpLines sendAccepts recvQuiet OpStart
             (perform_all httpLines sendAccepts recvQuiet
                [OpStart; OpIncoming (Some (bytes_of_string forbidden))] fresh))
     = [bytes_of_string (generateHttpRequest fresh);
        bytes_of_string (generateHttpRequest fresh)].
Proof.
  destruct (start_sends_the_constructor_target httpLines sendAccepts recvQuiet
              true "example.org" "443" fresh
              [OpStart; OpIncoming (Some (bytes_of_string forbidden))] eq_refl)
    as (_ & _ & Hst & Hsent).
  split; [exact Hst|]. rewrite Hsent. reflexivity.
Defined.

Lemma connected_only_by_a_200_block_witness :
  exists (m : binary) (len : nat) (front : string) (rest : list string),
    OpIncoming (Some (bytes_of_string established)) = OpIncoming (Some m)
    /\ mState handshaking = Connecting
    /\ httpLines (mBuffer handshaking ++ m) = Returns (len, front :: rest)
    /\ len <> 0%nat
    /\ status_code front = 200%Z.
Proof.
  apply (connected_only_by_a_200_block httpLines sendAccepts recvQuiet
           (OpIncoming (Some (bytes_of_string established))) handshaking).
  - discriminate.
  - reflexivity.
Defined.

Lemma header_alone_witness :
  incoming httpLines recvQuiet (Some (bytes_of_string established)) handshaking
  = (Ret tt, mkTransport "example.org" "443" Connected [] true [] []).
Proof.
  apply (header_alone httpLines recvQuiet (bytes_of_string established)
           handshaking 39 status_200 []).
  - reflexivity.
  - reflexivity.
  - reflexivity.
  - discriminate.
  - reflexivity.
Defined.

Lemma handshake_waits_witness :
  deliveries httpLines recvQuiet
    (map Some [bytes_of_string "HTTP/1.1 2"; bytes_of_string "00 Connection"])
    handshaking
  = (Ret tt,
     mkTransport "example.org" "443" Connecting
       (bytes_of_string "HTTP/1.1 200 Connection") true [] []).
Proof.
  apply (handshake_waits httpLines recvQuiet
           [bytes_of_string "HTTP/1.1 2"; bytes_of_string "00 Connection"]
           handshaking).
  - reflexivity.
  - intros pre post Hsplit Hne.
    destruct pre as [|a [|b [|c pre]]].
    + congruence.
    + injection Hsplit as Ha _. subst a. reflexivity.
    + injection Hsplit as Ha Hb _. subst a b. reflexivity.
    + discriminate Hsplit.
Defined.

Lemma passthrough_in_order_witness :
  deliveries httpLines recvQuiet
    (map Some [bytes_of_string "ab"; []; bytes_of_string "c"]) tunnelling
  = (Ret tt,
     mkTransport "example.org" "443" Connected [] true
       [Some (bytes_of_string "ab"); Some []; Some (bytes_of_string "c")] []).
Proof.
  apply (passthrough_in_order httpLines recvQuiet
           [bytes_of_string "ab"; []; bytes_of_string "c"] tunnelling).
  - reflexivity.
  - repeat constructor.
Defined.

Lemma end_of_stream_is_final_witness :
  deliveries httpLines recvQuiet
    [None; Some (bytes_of_string "abc"); None] tunnelling
  = (Ret tt,
     mkTransport "example.org" "443" Disconnected [] true [None] []).
Proof.
  apply (end_of_stream_is_final httpLines recvQuiet
           [Some (bytes_of_string "abc"); None] tunnelling).
  - reflexivity.
  - reflexivity.
Defined.

Lemma restart_after_refusal_witness :
  mState (perform_all httpLines sendAccepts recvQuiet
            [OpIncoming (Some (bytes_of_string forbidden)); OpStart;
             OpIncoming (Some (bytes_of_string established))] handshaking)
    = Failed
  /\ received (perform_all httpLines sendAccepts recvQuiet
            [OpIncoming (Some (bytes_of_string forbidden)); OpStart;
             OpIncoming (Some (bytes_of_string established))] handshaking)
     = [].
Proof.
  destruct (restart_after_refusal httpLines sendAccepts recvQuiet
              (bytes_of_string forbidden) (bytes_of_string established)
              handshaking 26 status_403 [])
    as (_ & _ & _ & Hst & Hrcv).
  - reflexivity.
  - reflexivity.
  - reflexivity.
  - discriminate.
  - discriminate.
  - split; [exact Hst | exact Hrcv].
Defined.

Lemma erase_past_the_end_witness :
  incoming overReports recvQuiet (Some (bytes_of_string "abc")) handshaking
  = (Undef,
     mkTransport "example.org" "443" Connected (bytes_of_string "abc")
       true [] []).
Proof.
  apply (erase_past_the_end overReports recvQuiet (bytes_of_string "abc")
           handshaking 4 status_200 []).
  - reflexivity.
  - reflexivity.
  - reflexivity.
  - simpl. lia.
Defined.

Lemma status_line_read_witness :
  read_status "HTTP/1.0 200 OK" = (200%Z, false)
  /\ (status_code "HTTP/1.0 200 OK" = 200%Z <-> decimal "200" 0 = 200%Z).
Proof.
  apply (status_line_read "HTTP/1.0" "200" " OK").
  - discriminate.
  - reflexivity.
  - discriminate.
  - reflexivity.
  - reflexivity.
Defined.

(** * Runs of operations *)

Section Runs.

Variable parseHttpLines : binary -> reply (nat * list string).
Variable lowerSend : binary -> reply bool.
Variable upperRecv : message_ptr -> reply unit.

Local Abbreviation parseHttpResponse := (parseHttpResponse parseHttpLines).
Local Abbreviation incoming := (incoming parseHttpLines upperRecv).
Local Abbreviation perform := (perform parseHttpLines lowerSend upperRecv).
Local Abbreviation perform_all := (perform_all parseHttpLines lowerSend upperRecv).

Lemma perform_keeps_buffer_empty (op : operation) (t : Transport) :
  (forall b n lines,
      parseHttpLines b = Returns (n, lines) -> (n <= List.length b)%nat) ->
  (mState t = Connected -> mBuffer t = []) ->
  mState (perform op t) = Connected -> mBuffer (perform op t) = [].
Proof.
  intros Hb Hinv. destruct op as [| |message|message]; simpl.
  - rewrite (start_result lowerSend). discriminate.
  - destruct t; simpl in *. exact Hinv.
  - rewrite (send_result lowerSend).
    destruct (State_eqb (mState t) Connected); simpl; exact Hinv.
  - destruct (State_eqb_spec (mState t) Connecting) as [Hs|Hs].
    + destruct message as [m|].
      * destruct (incoming_connecting_cases parseHttpLines upperRecv m t Hs)
          as [[_ H] | [(e & _ & H) | [(len & Hp & Hlt & _) | (len & _ & _ & H)]]].
        -- rewrite H. simpl. congruence.
        -- rewrite H. discriminate.
        -- pose proof (parseHttpResponse_bound parseHttpLines _ _ Hb Hp). lia.
        -- rewrite H.
           destruct (skipn (S len) (mBuffer t ++ m)) as [|b r];
             [reflexivity|].
           destruct (upperRecv (Some (b :: r))); [reflexivity | discriminate].
      * rewrite (incoming_null parseHttpLines upperRecv), Hs. discriminate.
    + destruct (State_eqb_spec (mState t) Connected) as [Hd|Hd].
      * destruct message as [m|].
        -- rewrite (incoming_passthrough parseHttpLines upperRecv m t Hd).
           destruct (upperRecv (Some m)); simpl; [auto | discriminate].
        -- rewrite (incoming_null parseHttpLines upperRecv), Hd. discriminate.
      * rewrite (incoming_dropped parseHttpLines upperRecv message t Hs Hd).
        exact Hinv.
Qed.

(** X2. With a splitter that never reports more bytes than it was given,
    the buffer is empty whenever the state is [Connected]: this holds of a
    new object and is kept by every [start], [stop], [send] and delivery, so
    that a connected tunnel holds back none of the bytes it was given. *)
Theorem buffer_empty_while_connected (ops : list operation) (t : Transport) :
  (forall b n lines,
      parseHttpLines b = Returns (n, lines) -> (n <= List.length b)%nat) ->
  (mState t = Connected -> mBuffer t = []) ->
  mState (perform_all ops t) = Connected ->
  mBuffer (perform_all ops t) = [].
Proof.
  intros Hb. revert t. induction ops as [|op ops IH]; intros t Hinv.
  - exact Hinv.
  - enter_perform_all. simpl. apply IH.
    exact (perform_keeps_buffer_empty op t Hb Hinv).
Qed.

(** X14. The tunnel from [start] to the first message: when [start] is
    followed by a delivery that completes a header block of status 200 within
    the buffer, and the receiver accepts what it is given, a [send] before
    that delivery throws the not-open error and passes nothing on, and a
    [send] after it passes its message to the lower transport, right behind
    the CONNECT request. *)
Theorem tunnel_opens_then_carries (m message : binary) (t : Transport)
        (len : nat) (front : string) (rest : list string) :
  (forall x, upperRecv x = Returns tt) ->
  parseHttpLines (mBuffer t ++ m) = Returns (len, front :: rest) ->
  status_code front = 200%Z ->
  (0 < len <= List.length (mBuffer t ++ m))%nat ->
  send lowerSend message (perform OpStart t) = (Throw NotOpen, perform OpStart t)
  /\ mState (perform_all [OpStart; OpIncoming (Some m); OpSend message] t)
     = Connected
  /\ sent (perform_all [OpStart; OpIncoming (Some m); OpSend message] t)
     = sent t ++ [bytes_of_string (generateHttpRequest t); message].
Proof.
  intros Hrecv Hp Hc [Hpos Hle]. enter_perform_all. simpl.
  rewrite (start_result lowerSend).
  split.
  - destruct t as [h sv st buf reg rcv snt]. unfold_cpp. reflexivity.
  - set (t1 := log_sent (bytes_of_string (generateHttpRequest t))
                 (set_state Connecting (set_registered true t))).
    assert (Hp1 : parseHttpResponse (mBuffer t1 ++ m) = Ret len)
      by exact (parseHttpResponse_accepts parseHttpLines _ _ _ _ Hp Hc).
    destruct (incoming_completes parseHttpLines upperRecv Hrecv m t1 len
                eq_refl Hp1 ltac:(lia) Hle)
      as (t2 & Hrun & Hst & _ & Hsent & _).
    rewrite Hrun. simpl. rewrite (send_result lowerSend), Hst. simpl.
    split; [exact Hst|]. rewrite Hsent. simpl. now rewrite <- app_assoc.
Qed.

End Runs.

Lemma buffer_empty_while_connected_witness :
  mBuffer (perform_all httpLines sendAccepts recvQuiet
             [OpStart; OpIncoming (Some established_abc);
              OpSend (bytes_of_string "abc")] fresh) = [].
Proof.
  apply (buffer_empty_while_connected httpLines sendAccepts recvQuiet
           [OpStart; OpIncoming (Some established_abc);
            OpSend (bytes_of_string "abc")] fresh).
  - exact httpLines_bound.
  - discriminate.
  - reflexivity.
Defined.

Lemma tunnel_opens_then_carries_witness :
  send sendAccepts (bytes_of_string "abc")
       (perform httpLines sendAccepts recvQuiet OpStart fresh)
    = (Throw NotOpen, perform httpLines sendAccepts recvQuiet OpStart fresh)
  /\ mState (perform_all httpLines sendAccepts recvQuiet
               [OpStart; OpIncoming (Some (bytes_of_string established));
                OpSend (bytes_of_string "abc")] fresh) = Connected
  /\ sent (perform_all httpLines sendAccepts recvQuiet
               [OpStart; OpIncoming (Some (bytes_of_string established));
                OpSend (bytes_of_string "abc")] fresh)
     = [bytes_of_string (generateHttpRequest fresh); bytes_of_string "abc"].
Proof.
  apply (tunnel_opens_then_carries httpLines sendAccepts recvQuiet
           (bytes_of_string established) (bytes_of_string "abc") fresh
           39 status_200 []).
  - intros x. reflexivity.
  - reflexivity.
  - reflexivity.
  - simpl. lia.
Defined.
